(** * openvr_fsr_app: the request layer (app/app_fn.py) and the mod helpers
      (app/mod/mod_utils.py), embedded as Rocq functions.

    Python dicts are finite maps ([gmap]) keyed by strings, the class
    attributes of [AppSettings] are an explicit state record, exceptions are
    a sum type, and the collaborators whose modules are not part of the
    sources at hand (FsrMod, FsrSettings, ManifestWorker, steam, globals) are
    type classes whose methods the embedded functions call. *)

From stdpp Require Import gmap strings list fin_maps.
From Stdlib Require Import ZArith Ascii.

Set Warnings "-register-all".

Local Open Scope string_scope.
Local Open Scope Z_scope.

(** ** Python values, exceptions and the builtins the code relies on *)

Module Py.

(** The JSON-like values that live in a manifest entry. *)
Inductive value : Type :=
| VNone
| VBool (b : bool)
| VInt (z : Z)
| VStr (s : string)
| VList (l : list value)
| VDict (items : list (string * value)).

Inductive exn : Type :=
| KeyError (k : string)
| TypeError
| AttributeError (name : string)
| OtherError (msg : string).

Inductive result (A : Type) : Type :=
| Ok (a : A)
| Raise (e : exn).
Arguments Ok {A} a.
Arguments Raise {A} e.

Global Instance result_ret : MRet result := λ A a, Ok a.
Global Instance result_bind : MBind result := λ A B k r,
  match r with
  | Ok a => k a
  | Raise e => Raise e
  end.

(** A [for] loop whose body may raise: the first exception ends the loop. *)
Fixpoint for_each {A S} (body : S → A → result S) (l : list A) (s : S) : result S :=
  match l with
  | [] => Ok s
  | x :: l' => s' ← body s x; for_each body l' s'
  end.

(** [bool(v)]. *)
Definition truthy (v : value) : bool :=
  match v with
  | VNone => false
  | VBool b => b
  | VInt z => negb (z =? 0)
  | VStr s => negb (String.eqb s "")
  | VList l => match l with [] => false | _ => true end
  | VDict l => match l with [] => false | _ => true end
  end.

(** [v is True]. *)
Definition is_True (v : value) : bool :=
  match v with VBool true => true | _ => false end.

(** [v == s] for a [str] [s]. *)
Definition eq_str (v : value) (s : string) : bool :=
  match v with VStr s' => String.eqb s' s | _ => false end.

(** [d.get(k)] and [d.get(k, default)]. *)
Definition get (d : gmap string value) (k : string) : value :=
  default VNone (d !! k).
Definition get_default (d : gmap string value) (k : string) (dflt : value) : value :=
  default dflt (d !! k).

(** [d[k]]. *)
Definition getitem {A} (d : gmap string A) (k : string) : result A :=
  match d !! k with
  | Some v => Ok v
  | None => Raise (KeyError k)
  end.

(** [k in d] for a dict with [str] keys: a list or a dict is unhashable,
    any other non-string is simply not a key. *)
Definition contains {A} (d : gmap string A) (k : value) : result bool :=
  match k with
  | VStr s => Ok (bool_decide (is_Some (d !! s)))
  | VList _ | VDict _ => Raise TypeError
  | _ => Ok false
  end.

(** Whether a value can be a dict key at all. *)
Definition hashable (v : value) : bool :=
  match v with
  | VList _ | VDict _ => false
  | _ => true
  end.

(** Whether a call returned rather than raised. *)
Definition is_Ok {A} (r : result A) : bool :=
  match r with
  | Ok _ => true
  | Raise _ => false
  end.

(** [any(l)]. *)
Definition any (l : list bool) : bool := existsb id l.

(** *** The format specification [03d] *)

Definition digit_char (d : Z) : ascii :=
  match d with
  | 0 => "0" | 1 => "1" | 2 => "2" | 3 => "3" | 4 => "4"
  | 5 => "5" | 6 => "6" | 7 => "7" | 8 => "8" | _ => "9"
  end%char.

(** Decimal digits of [n >= 0], most significant first, put before [acc]. *)
Fixpoint digits_of (fuel : nat) (n : Z) (acc : string) : string :=
  match fuel with
  | O => acc
  | S f =>
      let acc' := String (digit_char (n mod 10)) acc in
      if n / 10 =? 0 then acc' else digits_of f (n / 10) acc'
  end.

(** A number below [2 ^ k] has at most [k] decimal digits. *)
Definition decimal (n : Z) : string :=
  digits_of (S (Z.to_nat (Z.log2 n))) n "".

Fixpoint zeros (k : nat) : string :=
  match k with
  | O => ""
  | S k' => String "0"%char (zeros k')
  end.

Definition zfill (width : nat) (s : string) : string :=
  zeros (width - String.length s)%nat +:+ s.

(** [f'{n:03d}']: the sign counts towards the width. *)
Definition format_03d (n : Z) : string :=
  if n <? 0 then String "-"%char (zfill 2 (decimal (- n)))
  else zfill 3 (decimal n).

(** Reads a run of decimal digits back; used to invert [format_03d]. *)
Definition digit_val (c : ascii) : Z := Z.of_nat (nat_of_ascii c) - 48.

Fixpoint read_digits (a : Z) (s : string) : Z :=
  match s with
  | EmptyString => a
  | String c s' => read_digits (a * 10 + digit_val c) s'
  end.

(** Reads a formatted counter back. *)
Definition parse_03d (s : string) : Z :=
  match s with
  | String c rest =>
      if Ascii.eqb c "-"%char then - read_digits 0 rest else read_digits 0 s
  | EmptyString => 0
  end.

End Py.
Export Py.

(** A manifest entry: one game, as the dict the front end and the cache use. *)
Abbreviation entry := (gmap string value).
(** A library: entries keyed by application id. *)
Abbreviation library := (gmap string (gmap string value)).

(** [d.pop(k)]. *)
Definition pop {A} (d : gmap string A) (k : value) : result (A * gmap string A) :=
  match k with
  | VStr s =>
      match d !! s with
      | Some v => Ok (v, delete s d)
      | None => Raise (KeyError s)
      end
  | VList _ | VDict _ => Raise TypeError
  | _ => Raise (KeyError "")
  end.

(** [Path(v)]: only a [str] can become a path; the path is kept as its string. *)
Definition Path (v : value) : result string :=
  match v with
  | VStr s => Ok s
  | _ => Raise TypeError
  end.

(** ** The file system, as far as the code looks at it *)

Record filesystem : Type := Filesystem {
  dirs : gmap string bool;      (* directories, with whether they can be written to *)
  files : gmap string string;   (* regular files and their content *)
}.

(** [Path(d) / name] for a relative [name]. *)
Definition joinpath (d name : string) : string := d +:+ "/" +:+ name.

(** [Path(p).exists()]. *)
Definition path_exists (fs : filesystem) (p : string) : bool :=
  bool_decide (is_Some (dirs fs !! p)) || bool_decide (is_Some (files fs !! p)).

(** ** AppSettings: class attributes and what is persisted *)

Record AppSettings : Type := mkAppSettings {
  user_apps : library;
  user_app_counter : Z;
}.

Record Store : Type := mkStore {
  attrs : AppSettings;                  (* the class attributes, in memory *)
  settings_file : option AppSettings;   (* the settings file on disk *)
  steam_apps_file : library;            (* the steam apps disk cache *)
}.

Definition set_attrs (a : AppSettings) (st : Store) : Store :=
  mkStore a (settings_file st) (steam_apps_file st).

(** Modelled from the spec: app/app_settings.py is not among the sources; the
    settings collaborator "exposes load() and save(mapping)" and the user
    registry is persisted with it. [save] writes the class attributes to the
    settings file and leaves them as they are in memory. *)
Definition AppSettings_save (st : Store) : Store :=
  mkStore (attrs st) (Some (attrs st)) (steam_apps_file st).

(** Modelled from the spec: [load] of the same collaborator reads the settings
    file back into the class attributes; without a file they keep their values. *)
Definition AppSettings_load (st : Store) : Store :=
  match settings_file st with
  | Some a => mkStore a (settings_file st) (steam_apps_file st)
  | None => st
  end.

(** Modelled from the spec: [save_steam_apps] of the same collaborator replaces
    the disk cache by the mapping it is given. *)
Definition AppSettings_save_steam_apps (steam_apps : library) (st : Store) : Store :=
  mkStore (attrs st) (settings_file st) steam_apps.

(** Modelled from the spec: [load_steam_apps] returns the disk cache. *)
Definition AppSettings_load_steam_apps (st : Store) : library :=
  steam_apps_file st.

(** ** Collaborators that the functions call *)

(** app/globals.py, and the [str()] conversions that f-strings perform. *)
Class Globals : Type := {
  USER_APP_PREFIX : string;
  format_value : value → string;
  format_exn : exn → string;
  as_posix : string → string;   (* Path.as_posix *)
  parent : string → string;     (* Path.parent *)
}.

(** app/fsr_cfg.py: the settings object of the FSR mod. *)
Class FsrSettingsApi : Type := {
  FsrSettings : Type;
  FsrSettings_new : FsrSettings;
  read_from_cfg : FsrSettings → filesystem → string → bool * FsrSettings;
  to_js : FsrSettings → option bool → value;   (* to_js(), to_js(export=b) *)
}.

(** app/fsr_mod.py: a mod object owns the manifest it was built from. *)
Record FsrMod `{FsrSettingsApi} : Type := mkFsrMod {
  manifest : entry;
  settings : FsrSettings;
  error : value;
}.

Class FsrModApi `{FsrSettingsApi} : Type := {
  FsrMod_new : entry → FsrMod;
  update_cfg : FsrMod → filesystem → bool * FsrMod * filesystem;
  install : FsrMod → filesystem → bool * FsrMod * filesystem;
  uninstall : FsrMod → filesystem → bool * FsrMod * filesystem;
  get_fsr_version : FsrMod → filesystem → value;
}.

(** app/valve/steam.py and app/manifest_worker.py. *)
Class SteamApi : Type := {
  STEAM_LIBRARY_FOLDERS : string;
  (* read_steam_library(find_open_vr=True), then steam.apps.steam_apps *)
  read_steam_library : filesystem → result library;
  update_steam_apps : filesystem → library → library;
  find_open_vr_dll : filesystem → string → list string;
}.

(** What is handed to [json.dumps]. *)
Inductive jval : Type :=
| JBool (b : bool)
| JVal (v : value)
| JEntry (e : entry)
| JLibrary (apps : library).

Abbreviation response := (gmap string jval).

(** The two responses of the registry functions: ['result'] and ['msg']. *)
Definition failure (msg : string) : response :=
  {[ "result" := JBool false; "msg" := JVal (VStr msg) ]}.

Definition success_ (msg : string) : response :=
  {[ "result" := JBool true; "msg" := JVal (VStr msg) ]}.

(** ** app/app_fn.py *)

Section app_fn.
Context `{G : Globals} `{FS : FsrSettingsApi} `{FM : !FsrModApi} `{SA : SteamApi}.

(** The body of the loop of [reduce_steam_apps_for_export]. *)
Definition reduce_entry (e : entry) : entry :=
  let fsr := FsrMod_new e in
  list_to_map [
    ("settings", to_js (settings fsr) (Some true));
    ("fsrInstalled", get e "fsrInstalled");
    ("fsrVersion", get e "fsrVersion");
    ("fsr_compatible", get_default e "fsr_compatible" (VBool true));
    ("name", get e "name");
    ("sizeGb", get e "sizeGb");
    ("path", get e "path");
    ("openVrDllPaths", get e "openVrDllPaths");
    ("openVrDllPathsSelected", get e "openVrDllPathsSelected");
    ("openVr", get e "openVr");
    ("SizeOnDisk", get e "SizeOnDisk");
    ("appid", get e "appid")
  ].

(** The keys of an exported entry. *)
Definition public_keys : gset string :=
  {[ "settings"; "fsrInstalled"; "fsrVersion"; "fsr_compatible"; "name"; "sizeGb";
     "path"; "openVrDllPaths"; "openVrDllPathsSelected"; "openVr"; "SizeOnDisk";
     "appid" ]}.

Definition reduce_steam_apps_for_export (steam_apps : library) : library :=
  reduce_entry <$> steam_apps.

Definition _load_steam_apps_with_fsr_settings (st : Store) : library :=
  (λ e : entry, <["settings" := to_js (settings (FsrMod_new e)) (Some false)]> e)
    <$> AppSettings_load_steam_apps st.

(** First loop of [_save_steam_lib], what it does to one entry: an empty id
    is skipped, a truthy ['_showDetails'] is popped. *)
Definition drop_show_details (app_id : string) (e : entry) : entry :=
  if String.eqb app_id "" then e
  else if truthy (get e "_showDetails") then delete "_showDetails" e
  else e.

(** First loop of [_save_steam_lib], whether the id goes into [remove_ids]. *)
Definition is_user_entry (app_id : string) (e : entry) : bool :=
  negb (String.eqb app_id "")
  && (is_True (get_default e "userApp" (VBool false))
      || String.prefix USER_APP_PREFIX app_id).

(** [_save_steam_lib] changes the dict it is given: the caller's [steam_apps]
    is returned together with the store. *)
Definition _save_steam_lib (steam_apps : library) (st : Store)
  : result (library * Store) :=
  let steam_apps := map_imap (λ app_id e, Some (drop_show_details app_id e)) steam_apps in
  let removed := filter (λ kv, is_user_entry kv.1 kv.2 = true) steam_apps in
  let steam_apps := filter (λ kv, is_user_entry kv.1 kv.2 ≠ true) steam_apps in
  let a := attrs st in
  let st := set_attrs (mkAppSettings (removed ∪ user_apps a) (user_app_counter a)) st in
  let st := AppSettings_save_steam_apps (reduce_steam_apps_for_export steam_apps) st in
  Ok (steam_apps, AppSettings_save st).

(** Body of the loop that restores the cached settings in [get_steam_lib_fn]. *)
Definition restore_cached_entry (steam_apps : library) (item : string * entry)
  : result library :=
  let '(app_id, cached) := item in
  match steam_apps !! app_id with
  | None => Ok steam_apps
  | Some scanned =>
      s ← getitem cached "settings";
      let scanned := <["settings" := s]> scanned in
      sel ← getitem cached "openVrDllPathsSelected";
      let scanned := <["openVrDllPathsSelected" := sel]> scanned in
      Ok (<[app_id := scanned]> steam_apps)
  end.

(** The loop of [get_steam_lib_fn] over the items of the cache. *)
Definition restore_cached_settings (cached_steam_apps steam_apps : library)
  : result library :=
  for_each restore_cached_entry (map_to_list cached_steam_apps) steam_apps.

(** The library as it stands before it is cached to disk: the scan, the
    cached settings restored, the user apps added. *)
Definition merged_steam_lib (scanned : library) (st : Store) : result (library * Store) :=
  let cached_steam_apps := _load_steam_apps_with_fsr_settings st in
  steam_apps ← restore_cached_settings cached_steam_apps scanned;
  let st := AppSettings_load st in
  Ok (user_apps (attrs st) ∪ steam_apps, st).

Definition get_steam_lib_fn (fs : filesystem) (st : Store) : result (response * Store) :=
  match
    (steam_apps ← read_steam_library fs;
     _ ← getitem steam_apps STEAM_LIBRARY_FOLDERS;
     Ok (delete STEAM_LIBRARY_FOLDERS steam_apps))
  with
  | Raise e =>
      let msg := "Error getting Steam Lib: " +:+ format_exn e in
      Ok ({[ "result" := JBool false; "msg" := JVal (VStr msg) ]}, st)
  | Ok steam_apps =>
      let steam_apps := update_steam_apps fs steam_apps in
      '(steam_apps, st) ← merged_steam_lib steam_apps st;
      match _save_steam_lib steam_apps st with
      | Raise e =>
          let msg := "Error saving Steam Lib data: " +:+ format_exn e in
          Ok ({[ "result" := JBool false; "msg" := JVal (VStr msg) ]}, st)
      | Ok (steam_apps, st) =>
          Ok ({[ "result" := JBool true; "data" := JLibrary steam_apps ]}, st)
      end
  end.

Definition remove_custom_app_fn (app : entry) (st : Store) : result (response * Store) :=
  let a := attrs st in
  found ← contains (user_apps a) (get app "appid");
  if negb found then
    let msg := "Could not find app with Id: " +:+ format_value (get app "appid") in
    Ok ({[ "result" := JBool false; "msg" := JVal (VStr msg) ]}, st)
  else
    '(e, apps) ← pop (user_apps a) (get app "appid");
    let st := AppSettings_save (set_attrs (mkAppSettings apps (user_app_counter a)) st) in
    let msg := "App entry " +:+ format_value (get e "name") +:+ " "
               +:+ format_value (get e "appid") +:+ " created." in
    Ok ({[ "result" := JBool true; "msg" := JVal (VStr msg) ]}, st).

(** The loop of [add_custom_app_fn] over the registered entries: the first
    one that has the path. *)
Definition find_registered_path (posix : string) (apps : library)
  : option (string * entry) :=
  List.find (λ kv : string * entry, eq_str (get kv.2 "path") posix) (map_to_list apps).

(** [f.read_from_cfg(p.parent)] for every path, in order, on the one object [f]. *)
Fixpoint read_cfg_results (f : FsrSettings) (fs : filesystem) (paths : list string)
  : list bool * FsrSettings :=
  match paths with
  | [] => ([], f)
  | p :: rest =>
      let '(r, f) := read_from_cfg f fs (parent p) in
      let '(rs, f) := read_cfg_results f fs rest in
      (r :: rs, f)
  end.

Definition add_custom_app_fn (app : entry) (fs : filesystem) (st : Store)
  : result (response * Store) :=
  let fail msg : result (response * Store) :=
    Ok ({[ "result" := JBool false; "msg" := JVal (VStr msg) ]}, st) in
  match get app "path" with
  | VNone | VStr "" => fail "No valid path provided."
  | p =>
      path ← Path p;
      if negb (path_exists fs path) then fail "Provided path does not exist."
      else
        match find_registered_path (as_posix path) (user_apps (attrs st)) with
        | Some (app_id, e) =>
            fail ("Entry already exists as " +:+ format_value (get e "name")
                  +:+ ", Id: " +:+ app_id +:+ ".")
        | None =>
            let openvr_paths := find_open_vr_dll fs path in
            match openvr_paths with
            | [] => fail ("No OpenVR dll found in: " +:+ as_posix path
                          +:+ " or any sub directory.")
            | _ =>
                let '(cfg_results, f) := read_cfg_results FsrSettings_new fs openvr_paths in
                let a := attrs st in
                let counter := user_app_counter a + 1 in
                let app_id := USER_APP_PREFIX +:+ format_03d counter in
                let dlls := VList ((λ p, VStr (as_posix p)) <$> openvr_paths) in
                let e : entry := list_to_map [
                  ("appid", VStr app_id);
                  ("name", get_default app "name" (VStr app_id));
                  ("path", VStr (as_posix path));
                  ("openVrDllPaths", dlls);
                  ("openVrDllPathsSelected", dlls);
                  ("openVr", VBool true);
                  ("settings", to_js f None);
                  ("fsrInstalled", VBool (any cfg_results));
                  ("sizeGb", VInt 0); ("SizeOnDisk", VInt 0);
                  ("userApp", VBool true)
                ] in
                let st := set_attrs (mkAppSettings (<[app_id := e]> (user_apps a)) counter) st in
                let st := AppSettings_save st in
                Ok ({[ "result" := JBool true;
                       "msg" := JVal (VStr ("App entry " +:+ app_id +:+ " created.")) ]}, st)
            end
        end
  end.

(** Every entry of the user registry, in memory and in the settings file, is
    one that [_save_steam_lib] takes for a user entry. *)
Definition flagged (apps : library) : Prop :=
  map_Forall (λ app_id e, is_user_entry app_id e = true) apps.

Definition registry_flagged (st : Store) : Prop :=
  flagged (user_apps (attrs st))
  ∧ ∀ a, settings_file st = Some a → flagged (user_apps a).

(** Successive calls of [add_custom_app_fn], each with its request and the
    file system of the moment: the identifiers under which the successful
    calls register their entry, in order. A call that raises has not touched
    the store. *)
Fixpoint registered_ids (calls : list (entry * filesystem)) (st : Store) : list string :=
  match calls with
  | [] => []
  | (app, fs) :: rest =>
      match add_custom_app_fn app fs st with
      | Ok (r, st') =>
          match r !! "result" with
          | Some (JBool true) =>
              (USER_APP_PREFIX +:+ format_03d (user_app_counter (attrs st')))
                :: registered_ids rest st'
          | _ => registered_ids rest st'
          end
      | Raise _ => registered_ids rest st
      end
  end.

(** Whether a call returned a response whose ['result'] is [True]. *)
Definition succeeded {S} (r : result (response * S)) : bool :=
  match r with
  | Ok (resp, _) =>
      match resp !! "result" with
      | Some (JBool true) => true
      | _ => false
      end
  | Raise _ => false
  end.

(** [fsr.manifest[k] = v]. *)
Definition set_manifest (fsr : FsrMod) (k : string) (v : value) : FsrMod :=
  mkFsrMod _ (<[k := v]> (manifest fsr)) (settings fsr) (error fsr).

Definition update_fsr_fn (m : entry) (fs : filesystem) : response * filesystem :=
  let fsr := FsrMod_new m in
  let '(cfg_result, fsr, fs) := update_cfg fsr fs in
  let fsr :=
    if cfg_result then set_manifest fsr "fsrVersion" (get_fsr_version fsr fs)
    else fsr in
  ({[ "result" := JBool (cfg_result && negb (truthy (error fsr)));
      "msg" := JVal (error fsr);
      "manifest" := JEntry (manifest fsr) ]}, fs).

Definition install_fsr_fn (m : entry) (fs : filesystem) : response * filesystem :=
  let fsr := FsrMod_new m in
  let '(install_result, fsr, fs) := install fsr fs in
  let fsr :=
    if install_result then set_manifest fsr "fsrVersion" (get_fsr_version fsr fs)
    else fsr in
  ({[ "result" := JBool install_result;
      "msg" := JVal (error fsr);
      "manifest" := JEntry (manifest fsr) ]}, fs).

Definition uninstall_fsr_fn (m : entry) (fs : filesystem) : response * filesystem :=
  let fsr := FsrMod_new m in
  let '(uninstall_result, fsr, fs) := uninstall fsr fs in
  let fsr :=
    if uninstall_result then set_manifest fsr "fsrVersion" (VStr "")
    else fsr in
  ({[ "result" := JBool uninstall_result;
      "msg" := JVal (error fsr);
      "manifest" := JEntry (manifest fsr) ]}, fs).

End app_fn.

(** ** app/mod/mod_utils.py *)

(** What [check_mod_data_dir] reads off a mod object. *)
Record BaseMod : Type := mkBaseMod {
  DLL_NAME : string;
  CFG_FILE : string;          (* mod.settings.CFG_FILE *)
  mod_manifest : entry;
}.

(** app/mod/__init__.py: the table of mod types and the classes of the package. *)
Class BaseModType : Type := {
  mod_types : gmap Z string;                      (* BaseModType.mod_types *)
  mod_attr : string → option (entry → BaseMod);   (* getattr(app.mod, name) *)
}.

Section mod_utils.
Context `{BM : BaseModType}.

Definition get_mod (m : entry) (mod_type : Z) : result BaseMod :=
  match mod_types !! mod_type with
  | None => Raise TypeError   (* getattr(app.mod, None) *)
  | Some name =>
      match mod_attr name with
      | None => Raise (AttributeError name)
      | Some mod_type_class => Ok (mod_type_class m)
      end
  end.

(** [custom_data_dir] is what [AppSettings.mod_data_dirs.get] returns: a [str]
    or [None]. (A [Path] object is always truthy and its string is never
    empty; it behaves as its non-empty string does here.) *)
Definition check_mod_data_dir (custom_data_dir : value) (mod_type : Z) (fs : filesystem)
  : result bool :=
  if truthy custom_data_dir then
    p ← Path custom_data_dir;
    if path_exists fs p then
      mod_ ← get_mod ∅ mod_type;
      let dll_exists := path_exists fs (joinpath p (DLL_NAME mod_)) in
      let cfg_exists := path_exists fs (joinpath p (CFG_FILE mod_)) in
      if dll_exists && cfg_exists then Ok true else Ok false
    else Ok false
  else Ok false.

End mod_utils.

(** ** The installation state machine

    [toggle_mod_install_fn] and the install and uninstall methods of the mod
    classes are called by tests/test_app/test_openvr_mod.py but their modules
    are not among the sources; the transitions below follow section 4.3 of
    the specification, one host directory at a time. *)

Module Installation.

Record ModType : Type := mkModType {
  binary_name : string;   (* the target binary *)
  config_name : string;   (* the native config file *)
  payload : string;       (* the mod's binary *)
}.

Inductive state : Type := Absent | Installed.

Inductive error_kind : Type := PathUnavailable | BackupCollision.

Record outcome : Type := mkOutcome {
  success : bool;
  reported : option error_kind;
}.

(** Splits a file name at its last dot: stem, and extension with the dot. *)
Fixpoint split_ext (name : string) : string * string :=
  match name with
  | EmptyString => ("", "")
  | String c rest =>
      match split_ext rest with
      | (stem, EmptyString) =>
          if Ascii.eqb c "."%char then ("", String c stem) else (String c stem, "")
      | (stem, ext) => (String c stem, ext)
      end
  end.

(** Modelled from the spec: the reserved backup name [<original-stem>.orig<ext>];
    the code that builds it is not among the sources. *)
Definition backup_name (name : string) : string :=
  let '(stem, ext) := split_ext name in stem +:+ ".orig" +:+ ext.

Definition target_path (mt : ModType) (d : string) : string :=
  joinpath d (binary_name mt).
Definition backup_path (mt : ModType) (d : string) : string :=
  joinpath d (backup_name (binary_name mt)).
Definition config_path (mt : ModType) (d : string) : string :=
  joinpath d (config_name mt).

Definition write_file (p content : string) (fs : filesystem) : filesystem :=
  Filesystem (dirs fs) (<[p := content]> (files fs)).

Definition delete_file (p : string) (fs : filesystem) : filesystem :=
  Filesystem (dirs fs) (delete p (files fs)).

Definition rename_file (src dst : string) (fs : filesystem) : filesystem :=
  match files fs !! src with
  | Some content => Filesystem (dirs fs) (<[dst := content]> (delete src (files fs)))
  | None => fs
  end.

(** Modelled from the spec: [is_present(directory)] of section 4.2, "true if
    both the mod's binary and its native config file exist at the directory". *)
Definition is_present (mt : ModType) (d : string) (fs : filesystem) : bool :=
  path_exists fs (target_path mt d) && path_exists fs (config_path mt d).

Definition state_of (mt : ModType) (d : string) (fs : filesystem) : state :=
  if is_present mt d fs then Installed else Absent.

(** Modelled from the spec: transition [install] of section 4.3, steps 1 to 4,
    [cfg] being the native form rendered from the current settings. A backup
    that is already there is trusted and the file in place is overwritten. *)
Definition install (mt : ModType) (cfg : string) (d : string) (fs : filesystem)
  : outcome * filesystem :=
  match dirs fs !! d with
  | Some true =>
      let '(warning, fs) :=
        match files fs !! target_path mt d with
        | Some _ =>
            match files fs !! backup_path mt d with
            | Some _ => (Some BackupCollision, fs)
            | None => (None, rename_file (target_path mt d) (backup_path mt d) fs)
            end
        | None => (None, fs)
        end in
      let fs := write_file (target_path mt d) (payload mt) fs in
      let fs := write_file (config_path mt d) cfg fs in
      (mkOutcome true warning, fs)
  | _ => (mkOutcome false (Some PathUnavailable), fs)
  end.

(** Modelled from the spec: transition [uninstall] of section 4.3, steps 1 and
    2; on a directory that is [Absent] it does nothing and reports success. *)
Definition uninstall (mt : ModType) (d : string) (fs : filesystem)
  : outcome * filesystem :=
  match state_of mt d fs with
  | Absent => (mkOutcome true None, fs)
  | Installed =>
      let fs := delete_file (config_path mt d) fs in
      let fs :=
        match files fs !! backup_path mt d with
        | Some _ => rename_file (backup_path mt d) (target_path mt d) fs
        | None => delete_file (target_path mt d) fs
        end in
      (mkOutcome true None, fs)
  end.

(** Modelled from the spec: the toggle that [toggle_install] applies to a
    host directory; repeated calls flip the state, as the test
    [test_toggle_mod_install_fn] expects. *)
Definition toggle_install (mt : ModType) (cfg : string) (d : string) (fs : filesystem)
  : outcome * filesystem :=
  match state_of mt d fs with
  | Installed => uninstall mt d fs
  | Absent => install mt cfg d fs
  end.

(** Modelled from the spec: the transition is applied to every selected host
    directory, a failure does not stop the remaining ones, and every outcome
    is reported. *)
Fixpoint toggle_install_all (mt : ModType) (cfg : string) (selected : list string)
  (fs : filesystem) : list outcome * filesystem :=
  match selected with
  | [] => ([], fs)
  | d :: rest =>
      let '(o, fs) := toggle_install mt cfg d fs in
      let '(os, fs) := toggle_install_all mt cfg rest fs in
      (o :: os, fs)
  end.

Definition aggregate (outcomes : list outcome) : bool :=
  forallb success outcomes.

(** The config file of a mod type is neither its binary nor the backup of it. *)
Definition distinct_names (mt : ModType) : Prop :=
  config_name mt ≠ binary_name mt ∧ config_name mt ≠ backup_name (binary_name mt).

(** What two toggles in a row are expected to do in a writable host directory
    that is [Absent] and holds a binary [original] at the target path. *)
Definition toggles_restore (mt : ModType) (cfg d : string) (fs : filesystem)
  (original : string) : Prop :=
  let '(o1, fs1) := toggle_install mt cfg d fs in
  let '(o2, fs2) := toggle_install mt cfg d fs1 in
  (success o1 = true
   ∧ files fs1 !! backup_path mt d = Some original
   ∧ files fs1 !! config_path mt d = Some cfg
   ∧ files fs1 !! target_path mt d = Some (payload mt))
  ∧ (success o2 = true
     ∧ files fs2 !! target_path mt d = Some original
     ∧ files fs2 !! backup_path mt d = None
     ∧ files fs2 !! config_path mt d = None
     ∧ state_of mt d fs2 = Absent).

End Installation.

(** What the restore loop does to a scanned entry that has a cached one. *)
Definition with_cached (cached : entry) (scanned : entry) : entry :=
  <["openVrDllPathsSelected" := get cached "openVrDllPathsSelected"]>
    (<["settings" := get cached "settings"]> scanned).

(** ** A concrete configuration

    One instance of every collaborator, a file system and a store, on which
    the statements below are evaluated. *)

Module Demo.

(** [Path.parent] on the string form: everything before the last slash. *)
Fixpoint dirname (p : string) : string :=
  match p with
  | EmptyString => ""
  | String c rest =>
      match String.index 0 "/" rest with
      | Some _ => String c (dirname rest)
      | None => ""
      end
  end.

Definition globals : Globals := {|
  USER_APP_PREFIX := "#Usr";
  format_value := λ v, match v with VStr s => s | _ => "None" end;
  format_exn := λ e, match e with KeyError k => k | _ => "error" end;
  as_posix := λ p, p;
  parent := dirname;
|}.

Definition fsr_settings : FsrSettingsApi := {|
  FsrSettings := bool;
  FsrSettings_new := false;
  read_from_cfg := λ f fs d,
    let found := path_exists fs (joinpath d "openvr_mod.cfg") in (found, f || found);
  to_js := λ f export,
    VList [VDict [("key", VStr "enabled"); ("value", VBool f)]];
|}.

Definition openvr_fsr : Installation.ModType :=
  Installation.mkModType "openvr_api.dll" "openvr_mod.cfg"
    "openvr_api.dll of the mod, a payload of more than fifty bytes in all".

Definition selected_dirs (m : entry) : list string :=
  match get m "openVrDllPathsSelected" with
  | VList l => omap (λ v, match v with VStr p => Some (dirname p) | _ => None end) l
  | _ => []
  end.

(** Installs into every selected directory and reports the first failure. *)
Fixpoint install_dirs (ds : list string) (fs : filesystem) : bool * filesystem :=
  match ds with
  | [] => (true, fs)
  | d :: rest =>
      let '(o, fs) := Installation.install openvr_fsr "enabled=1" d fs in
      let '(ok, fs) := install_dirs rest fs in
      (Installation.success o && ok, fs)
  end.

Fixpoint uninstall_dirs (ds : list string) (fs : filesystem) : bool * filesystem :=
  match ds with
  | [] => (true, fs)
  | d :: rest =>
      let '(o, fs) := Installation.uninstall openvr_fsr d fs in
      let '(ok, fs) := uninstall_dirs rest fs in
      (Installation.success o && ok, fs)
  end.

Definition fsr_mod : @FsrModApi fsr_settings := {|
  FsrMod_new := λ m, @mkFsrMod fsr_settings m false (VStr "");
  update_cfg := λ fsr fs, (true, fsr, fs);
  install := λ fsr fs,
    let '(ok, fs') := install_dirs (selected_dirs (manifest fsr)) fs in
    (ok,
     @mkFsrMod fsr_settings
       (<["fsrInstalled" := VBool ok]> (manifest fsr)) (settings fsr)
       (if ok then error fsr else VStr "Could not install to every directory."),
     fs');
  uninstall := λ fsr fs,
    let '(ok, fs') := uninstall_dirs (selected_dirs (manifest fsr)) fs in
    (ok,
     @mkFsrMod fsr_settings
       (<["fsrInstalled" := VBool (negb ok)]> (manifest fsr)) (settings fsr) (error fsr),
     fs');
  get_fsr_version := λ fsr fs, VStr "v2.1.1";
|}.

Definition game : entry := list_to_map [
  ("appid", VStr "250820"); ("name", VStr "SteamVR"); ("path", VStr "game");
  ("sizeGb", VInt 5); ("SizeOnDisk", VInt 5368709120);
  ("openVr", VBool true);
  ("openVrDllPaths", VList [VStr "game/openvr_api.dll"]);
  ("openVrDllPathsSelected", VList [VStr "game/openvr_api.dll"]);
  ("_showDetails", VBool true)
].

Definition steam : SteamApi := {|
  STEAM_LIBRARY_FOLDERS := "libraryfolders";
  read_steam_library := λ fs,
    Ok (<["libraryfolders" := ∅]> (<["250820" := game]> ∅));
  update_steam_apps := λ fs apps, apps;
  find_open_vr_dll := λ fs p,
    if path_exists fs (joinpath p "openvr_api.dll")
    then [joinpath p "openvr_api.dll"] else [];
|}.

Definition base_mod_type : BaseModType := {|
  mod_types := <[0 := "FsrMod"]> (<[1 := "VRPerfKitMod"]> ∅);
  mod_attr := λ name,
    if String.eqb name "FsrMod" then Some (mkBaseMod "openvr_api.dll" "openvr_mod.cfg")
    else if String.eqb name "VRPerfKitMod" then Some (mkBaseMod "dxgi.dll" "vrperfkit.yml")
    else None;
|}.

Definition fs : filesystem := {|
  dirs := <["game" := true]> (<["tools" := true]> (<["readonly" := false]> ∅));
  files := <["game/openvr_api.dll" := "original"]>
             (<["tools/openvr_api.dll" := "original"]>
               (<["readonly/openvr_api.dll" := "original"]> ∅));
|}.

Definition user_game : entry := list_to_map [
  ("appid", VStr "#Usr001"); ("name", VStr "Tools"); ("path", VStr "tools");
  ("openVrDllPaths", VList [VStr "tools/openvr_api.dll"]);
  ("openVrDllPathsSelected", VList [VStr "tools/openvr_api.dll"]);
  ("userApp", VBool true)
].

Definition cached_game : entry := list_to_map [
  ("appid", VStr "250820"); ("name", VStr "SteamVR (cached)");
  ("openVrDllPaths", VList []);
  ("openVrDllPathsSelected", VList []);
  ("settings", VList [])
].

Definition removed_game : entry := list_to_map [
  ("appid", VStr "546560"); ("name", VStr "No longer installed");
  ("openVrDllPathsSelected", VList [])
].

Definition readonly_game : entry := list_to_map [
  ("appid", VStr "17"); ("name", VStr "Read only");
  ("openVrDllPathsSelected", VList [VStr "readonly/openvr_api.dll"])
].

(** What the scan finds. *)
Definition scanned : library := <["250820" := game]> ∅.

(** A host directory in which an earlier backup was left behind. *)
Definition stale_fs : filesystem := {|
  dirs := <["game" := true]> ∅;
  files := <["game/openvr_api.dll" := "original"]>
             (<["game/openvr_api.orig.dll" := "older"]> ∅);
|}.

(** A directory that holds the files of the FSR mod. *)
Definition mod_fs : filesystem := {|
  dirs := <["mods" := true]> (<["empty" := true]> ∅);
  files := <["mods/openvr_api.dll" := "payload"]>
             (<["mods/openvr_mod.cfg" := "enabled=1"]> ∅);
|}.

(** Requests to the registry functions. *)
Definition unknown_app : entry := <["appid" := VStr "999"]> ∅.
Definition new_app : entry := <["path" := VStr "game"]> (<["name" := VStr "Game"]> ∅).
Definition no_path_app : entry := <["name" := VStr "Nowhere"]> ∅.

Definition store : Store :=
  let a := mkAppSettings (<["#Usr001" := user_game]> ∅) 1 in
  mkStore a (Some a) (<["250820" := cached_game]> (<["546560" := removed_game]> ∅)).

End Demo.

(** ** The remaining functions of app/app_fn.py and app/mod/mod_utils.py *)

(** [str(n)] for an [int]. *)
Definition int_str (n : Z) : string :=
  if n <? 0 then String "-"%char (decimal (- n)) else decimal n.

Section app_fn_rest.
Context `{G : Globals} `{FS : FsrSettingsApi} `{FM : !FsrModApi} `{SA : SteamApi}.

(** [get_version()] and the class attribute [AppSettings.previous_version],
    which nothing else here reads, are arguments. *)
Definition load_steam_lib_fn (version : string) (previous_version : value) (st : Store)
  : response :=
  let steam_apps := _load_steam_apps_with_fsr_settings st in
  let re_scan_required := false in
  let re_scan_required :=
    if negb (eq_str previous_version version) then true else re_scan_required in
  let re_scan_required :=
    if bool_decide (size steam_apps = 0%nat) then true else re_scan_required in
  let steam_apps := user_apps (attrs st) ∪ steam_apps in
  {[ "result" := JBool true;
     "data" := JLibrary steam_apps;
     "reScanRequired" := JBool re_scan_required ]}.

(** The refresh lets the cache win for one identifier: [get_steam_lib_fn]
    succeeds and the entry it returns under ['data'] for [app_id] has the
    ['settings'] and ['openVrDllPathsSelected'] of the cached entry [c] and
    the candidate list, the name and the sizes of the scanned entry [fresh]. *)
Definition cached_values_win (fs : filesystem) (st : Store) (app_id : string)
  (fresh c : entry) : Prop :=
  ∃ (apps : library) (st' : Store) (e : entry),
    get_steam_lib_fn fs st
    = Ok ({[ "result" := JBool true; "data" := JLibrary apps ]}, st')
    ∧ apps !! app_id = Some e
    ∧ e !! "settings" = c !! "settings"
    ∧ e !! "openVrDllPathsSelected" = c !! "openVrDllPathsSelected"
    ∧ e !! "openVrDllPaths" = fresh !! "openVrDllPaths"
    ∧ e !! "name" = fresh !! "name"
    ∧ e !! "sizeGb" = fresh !! "sizeGb"
    ∧ e !! "SizeOnDisk" = fresh !! "SizeOnDisk".

End app_fn_rest.

(** The part of app/mod/__init__.py and app/globals.py that
    [update_mod_data_dirs] reads. *)
Class ModDataDirs : Type := {
  mod_data_dir_names : gmap Z string;   (* BaseModType.mod_data_dir_names *)
  default_data_dir : string → string;   (* str(WindowsPath(get_data_dir() / name)) *)
}.

Section mod_utils_rest.
Context `{BM : BaseModType} `{MD : ModDataDirs}.

(** The generator [get_available_mods], run to its end: the mods it yields
    and the exception that ends it, if one does. *)
Fixpoint yield_mods (m : entry) (keys : list Z) : list BaseMod * option exn :=
  match keys with
  | [] => ([], None)
  | mod_type :: rest =>
      match get_mod m mod_type with
      | Ok mod_ =>
          let '(mods, e) := yield_mods m rest in (mod_ :: mods, e)
      | Raise e => ([], Some e)
      end
  end.

Definition get_available_mods (m : entry) : list BaseMod * option exn :=
  yield_mods m (map_to_list mod_types).*1.

(** Body of the loop of [update_mod_data_dirs]; [settings_dirs] is
    [AppSettings.mod_data_dirs]. *)
Definition update_mod_data_dir (fs : filesystem) (settings_dirs : gmap Z value)
  (mod_dirs : gmap Z value) (mod_type : Z) : result (gmap Z value) :=
  match mod_data_dir_names !! mod_type with
  | None => Raise (KeyError (int_str mod_type))
  | Some data_dir_name =>
      let mod_dirs := <[mod_type := VStr (default_data_dir data_dir_name)]> mod_dirs in
      let custom_src_data_dir := default VNone (settings_dirs !! mod_type) in
      match check_mod_data_dir custom_src_data_dir mod_type fs with
      | Ok true => Ok (<[mod_type := custom_src_data_dir]> mod_dirs)
      | Ok false => Ok mod_dirs
      | Raise e => Raise e
      end
  end.

(** Returns [mod_dirs] and the updated [AppSettings.mod_data_dirs]. *)
Definition update_mod_data_dirs (fs : filesystem) (settings_dirs : gmap Z value)
  : result (gmap Z value * gmap Z value) :=
  mod_dirs ← for_each (update_mod_data_dir fs settings_dirs)
               (map_to_list mod_types).*1 ∅;
  Ok (mod_dirs, mod_dirs ∪ settings_dirs).

(** The directory [update_mod_data_dirs] settles on for one mod type. *)
Definition chosen_data_dir (fs : filesystem) (settings_dirs : gmap Z value)
  (mod_type : Z) (data_dir_name : string) : value :=
  let custom := default VNone (settings_dirs !! mod_type) in
  match check_mod_data_dir custom mod_type fs with
  | Ok true => custom
  | _ => VStr (default_data_dir data_dir_name)
  end.

(** The directory chosen for a mod type, whatever its directory name is. *)
Definition choice (fs : filesystem) (settings_dirs : gmap Z value) (mod_type : Z) : value :=
  chosen_data_dir fs settings_dirs mod_type
    (default "" (mod_data_dir_names !! mod_type)).

(** Every mod type of the table has a directory name and a class. *)
Definition tables_complete : Prop :=
  ∀ mod_type name, mod_types !! mod_type = Some name →
    is_Some (mod_data_dir_names !! mod_type) ∧ is_Some (mod_attr name).

(** The configured directories are strings or [None]. *)
Definition dirs_are_str (settings_dirs : gmap Z value) : Prop :=
  map_Forall (λ _ v, match v with VStr _ | VNone => True | _ => False end) settings_dirs.

End mod_utils_rest.

Section registry_rest.
Context `{G : Globals}.

(** The counter is at least the number of every identifier of the registry
    that has the generated form. *)
Definition counter_covers (st : Store) : Prop :=
  ∀ c, is_Some (user_apps (attrs st) !! (USER_APP_PREFIX +:+ format_03d c)) →
       c ≤ user_app_counter (attrs st).

(** No two entries of a registry have the same path. *)
Definition unique_paths (apps : library) : Prop :=
  ∀ id1 id2 (e1 e2 : entry) (p : string),
    apps !! id1 = Some e1 → apps !! id2 = Some e2 →
    get e1 "path" = VStr p → get e2 "path" = VStr p → id1 = id2.

(** The keys of an exported entry that are copied from the entry as they are. *)
Definition copied_keys : list string :=
  [ "fsrInstalled"; "fsrVersion"; "name"; "sizeGb"; "path"; "openVrDllPaths";
    "openVrDllPathsSelected"; "openVr"; "SizeOnDisk"; "appid" ].

End registry_rest.

(** More of the concrete configuration. *)
Module DemoRest.

Definition mod_data_dirs : ModDataDirs := {|
  mod_data_dir_names := <[0 := "openvr_fsr"]> (<[1 := "vrperfkit"]> ∅);
  default_data_dir := λ name, "data/" +:+ name;
|}.

(** The settings point the FSR mod at a directory that holds it and the
    other mod at one that does not. *)
Definition settings_dirs : gmap Z value :=
  <[0 := VStr "mods"]> (<[1 := VStr "empty"]> ∅).

(** A table with a mod type that has no class. *)
Definition broken_mod_type : BaseModType := {|
  mod_types := <[7 := "NoSuchMod"]> ∅;
  mod_attr := λ name, None;
|}.


(** The cached entry of the game as [_load_steam_apps_with_fsr_settings]
    returns it. *)
Definition loaded_cached_game : entry :=
  <["settings" := VList [VDict [("key", VStr "enabled"); ("value", VBool false)]]]>
    Demo.cached_game.

(** An entry of the user registry under the identifier of the game. *)
Definition registry_game : entry := list_to_map [
  ("appid", VStr "250820"); ("name", VStr "From registry"); ("path", VStr "elsewhere");
  ("openVrDllPaths", VList [VStr "elsewhere/openvr_api.dll"]);
  ("openVrDllPathsSelected", VList [VStr "elsewhere/openvr_api.dll"]);
  ("settings", VList [VDict [("key", VStr "enabled"); ("value", VBool true)]])
].

(** The store of [Demo], with that entry in the registry as well. *)
Definition clash_store : Store :=
  let a := mkAppSettings
             (<["250820" := registry_game]> (<["#Usr001" := Demo.user_game]> ∅)) 1 in
  mkStore a (Some a)
    (<["250820" := Demo.cached_game]> (<["546560" := Demo.removed_game]> ∅)).

(** A scan whose entry for the game is flagged as a user app. *)
Definition flagged_game : entry := <["userApp" := VBool true]> Demo.game.

Definition flagged_steam : SteamApi := {|
  STEAM_LIBRARY_FOLDERS := "libraryfolders";
  read_steam_library := λ fs,
    Ok (<["libraryfolders" := ∅]> (<["250820" := flagged_game]> ∅));
  update_steam_apps := λ fs apps, apps;
  find_open_vr_dll := λ fs p, [];
|}.

End DemoRest.

(** * Properties *)

(** ** The [03d] format *)

Section format_facts.

Lemma digit_val_char (d : Z) : 0 ≤ d < 10 → digit_val (digit_char d) = d.
Proof.
  intros Hd.
  assert (d = 0 ∨ d = 1 ∨ d = 2 ∨ d = 3 ∨ d = 4 ∨ d = 5 ∨ d = 6 ∨ d = 7
          ∨ d = 8 ∨ d = 9) as Hcases by lia.
  repeat (destruct Hcases as [-> | Hcases]; [reflexivity |]).
  subst d. reflexivity.
Qed.

Lemma digit_char_not_dash (d : Z) : digit_char d ≠ "-"%char.
Proof. unfold digit_char. repeat case_match; discriminate. Qed.

Lemma read_digits_app (a : Z) (s1 s2 : string) :
  read_digits a (s1 +:+ s2) = read_digits (read_digits a s1) s2.
Proof. revert a. induction s1 as [| c s1 IH]; intros a; simpl; [done | apply IH]. Qed.

Lemma read_digits_zeros (k : nat) : read_digits 0 (zeros k) = 0.
Proof. induction k as [| k IH]; simpl; [done |]. exact IH. Qed.

Lemma read_digits_zfill (w : nat) (s : string) :
  read_digits 0 (zfill w s) = read_digits 0 s.
Proof. unfold zfill. by rewrite read_digits_app, read_digits_zeros. Qed.

(** Reading the digits written for [n] shifts the accumulator and adds [n]. *)
Lemma read_digits_of (fuel : nat) :
  ∀ (n : Z) (acc : string), 0 ≤ n < 10 ^ Z.of_nat fuel →
    ∃ k : Z, 0 ≤ k ∧
      ∀ a, read_digits a (digits_of fuel n acc) = read_digits (a * 10 ^ k + n) acc.
Proof.
  induction fuel as [| fuel IH]; intros n acc Hn.
  - exists 0. split; [lia |]. intros a. simpl in *. f_equal. lia.
  - simpl digits_of. destruct (Z.eqb_spec (n / 10) 0) as [Hq | Hq].
    + exists 1. split; [lia |]. intros a. simpl.
      rewrite digit_val_char by (apply Z.mod_pos_bound; lia).
      f_equal. pose proof (Z.div_mod n 10). lia.
    + destruct (IH (n / 10) (String (digit_char (n mod 10)) acc)) as (k & Hk & Hread).
      { rewrite Nat2Z.inj_succ, Z.pow_succ_r in Hn by lia.
        split; [apply Z.div_pos; lia |].
        apply Z.div_lt_upper_bound; lia. }
      exists (k + 1). split; [lia |]. intros a.
      rewrite Hread. simpl.
      rewrite digit_val_char by (apply Z.mod_pos_bound; lia).
      f_equal. rewrite Z.pow_add_r by lia.
      pose proof (Z.div_mod n 10). lia.
Qed.

Lemma digits_of_head (fuel : nat) :
  ∀ (n : Z) (acc : string),
    ∃ d rest, digits_of (S fuel) n acc = String (digit_char d) rest.
Proof.
  induction fuel as [| fuel IH]; intros n acc.
  - simpl. destruct (n / 10 =? 0); eauto.
  - change (digits_of (S (S fuel)) n acc) with
      (let acc' := String (digit_char (n mod 10)) acc in
       if n / 10 =? 0 then acc' else digits_of (S fuel) (n / 10) acc').
    simpl. destruct (n / 10 =? 0); [eauto | apply IH].
Qed.

Lemma read_decimal (n : Z) : 0 ≤ n → read_digits 0 (decimal n) = n.
Proof.
  intros Hn. unfold decimal.
  destruct (read_digits_of (S (Z.to_nat (Z.log2 n))) n "") as (k & _ & Hread).
  { split; [done |].
    rewrite Nat2Z.inj_succ, Z2Nat.id by apply Z.log2_nonneg.
    destruct (decide (n = 0)) as [-> | Hpos]; [done |].
    pose proof (Z.log2_spec n ltac:(lia)) as [_ Hlt].
    eapply Z.lt_le_trans; [exact Hlt |].
    apply Z.pow_le_mono_l. pose proof (Z.log2_nonneg n). lia. }
  rewrite Hread. simpl. lia.
Qed.

Lemma zfill_decimal_head (w : nat) (n : Z) :
  ∃ c rest, zfill w (decimal n) = String c rest ∧ c ≠ "-"%char.
Proof.
  unfold zfill.
  destruct (w - String.length (decimal n))%nat as [| k]; simpl.
  - unfold decimal. destruct (digits_of_head (Z.to_nat (Z.log2 n)) n "") as (d & rest & ->).
    exists (digit_char d), rest. split; [done | apply digit_char_not_dash].
  - eexists _, _. split; [reflexivity | discriminate].
Qed.

Lemma parse_format_03d (n : Z) : parse_03d (format_03d n) = n.
Proof.
  unfold format_03d. destruct (Z.ltb_spec n 0) as [Hneg | Hpos].
  - simpl. rewrite read_digits_zfill, read_decimal by lia. lia.
  - destruct (zfill_decimal_head 3 n) as (c & rest & Heq & Hc).
    unfold parse_03d. rewrite Heq.
    destruct (Ascii.eqb_spec c "-"%char) as [-> | _]; [done |].
    rewrite <- Heq. rewrite read_digits_zfill. by apply read_decimal.
Qed.

Lemma format_03d_inj (n m : Z) : format_03d n = format_03d m → n = m.
Proof.
  intros Heq. rewrite <- (parse_format_03d n), <- (parse_format_03d m).
  by rewrite Heq.
Qed.

Lemma format_03d_nonempty (n : Z) : format_03d n ≠ "".
Proof.
  unfold format_03d. destruct (n <? 0); [discriminate |].
  destruct (zfill_decimal_head 3 n) as (c & rest & -> & _). discriminate.
Qed.

Example format_03d_examples :
  format_03d 0 = "000" ∧ format_03d 7 = "007" ∧ format_03d 42 = "042"
  ∧ format_03d 999 = "999" ∧ format_03d 1234 = "1234" ∧ format_03d (-5) = "-05".
Proof. repeat split; reflexivity. Qed.

End format_facts.

(** ** Library reconciliation *)

Section library_facts.
Context `{G : Globals} `{FS : FsrSettingsApi} `{FM : !FsrModApi} `{SA : SteamApi}.

Lemma reduce_entry_dom (e : entry) : dom (reduce_entry e) = public_keys.
Proof.
  unfold reduce_entry, public_keys. rewrite dom_list_to_map_L. simpl.
  set_solver.
Qed.

Lemma reduce_entry_settings (e : entry) :
  reduce_entry e !! "settings" = Some (to_js (settings (FsrMod_new e)) (Some true)).
Proof. reflexivity. Qed.

Lemma is_user_entry_drop (app_id : string) (e : entry) :
  is_user_entry app_id (drop_show_details app_id e) = is_user_entry app_id e.
Proof.
  unfold is_user_entry, drop_show_details.
  destruct (String.eqb app_id ""); [done |].
  destruct (truthy _); [| done].
  unfold get_default. by rewrite lookup_delete_ne.
Qed.

Lemma for_each_cons {A S} (body : S → A → result S) (x : A) (l : list A) (s : S) :
  for_each body (x :: l) s = (s' ← body s x; for_each body l s').
Proof. reflexivity. Qed.

Lemma for_each_restore (l : list (string * entry)) :
  ∀ acc : library,
    NoDup l.*1 →
    (∀ app_id c, (app_id, c) ∈ l → is_Some (acc !! app_id) →
       is_Some (c !! "settings") ∧ is_Some (c !! "openVrDllPathsSelected")) →
    ∃ res : library,
      for_each restore_cached_entry l acc = Ok res ∧
      ∀ app_id,
        res !! app_id =
          (λ e, match (list_to_map l : library) !! app_id with
                | Some c => with_cached c e
                | None => e
                end) <$> acc !! app_id.
Proof.
  induction l as [| [k c] l IH]; intros acc Hnd Hwf.
  - exists acc. split; [done |]. intros app_id. simpl.
    rewrite lookup_empty. by destruct (acc !! app_id).
  - apply NoDup_cons in Hnd as [Hk Hnd]. simpl in Hk.
    assert (∃ acc1 : library,
      restore_cached_entry acc (k, c) = Ok acc1 ∧
      ∀ app_id, acc1 !! app_id =
        (λ e, if decide (app_id = k) then with_cached c e else e) <$> acc !! app_id)
      as (acc1 & Hstep & Hacc1).
    { unfold restore_cached_entry. destruct (acc !! k) as [e |] eqn:Hacc.
      - destruct (Hwf k c) as [[s Hs] [sel Hsel]]; [left | by eexists |].
        unfold getitem. rewrite Hs, Hsel. simpl.
        eexists. split; [reflexivity |]. intros app_id.
        destruct (decide (app_id = k)) as [-> | Hne].
        + rewrite lookup_insert_eq, Hacc. simpl. unfold with_cached, get.
          by rewrite Hs, Hsel.
        + rewrite lookup_insert_ne by done. by destruct (acc !! app_id).
      - exists acc. split; [done |]. intros app_id.
        destruct (decide (app_id = k)) as [-> | Hne].
        + by rewrite Hacc.
        + by destruct (acc !! app_id). }
    destruct (IH acc1 Hnd) as (res & Hres & Hlook).
    { intros app_id c' Hin Hsome. apply (Hwf app_id c'); [by right |].
      rewrite Hacc1 in Hsome. by apply fmap_is_Some in Hsome. }
    exists res. split.
    { rewrite for_each_cons, Hstep. exact Hres. }
    intros app_id. rewrite Hlook, Hacc1. simpl.
    destruct (acc !! app_id) as [e |]; simpl; [| done]. f_equal.
    destruct (decide (app_id = k)) as [-> | Hne].
    + rewrite lookup_insert_eq.
      assert ((list_to_map l : library) !! k = None) as ->; [| done].
      by apply not_elem_of_list_to_map_1.
    + by rewrite lookup_insert_ne.
Qed.

(** The restore loop in closed form. *)
Lemma restore_cached_settings_lookup (cached scanned : library) :
  (∀ app_id c, cached !! app_id = Some c → is_Some (scanned !! app_id) →
     is_Some (c !! "settings") ∧ is_Some (c !! "openVrDllPathsSelected")) →
  ∃ res : library,
    restore_cached_settings cached scanned = Ok res ∧
    ∀ app_id,
      res !! app_id =
        (λ e, match cached !! app_id with
              | Some c => with_cached c e
              | None => e
              end) <$> scanned !! app_id.
Proof.
  intros Hwf. unfold restore_cached_settings.
  destruct (for_each_restore (map_to_list cached) scanned) as (res & Hres & Hlook).
  { apply NoDup_fst_map_to_list. }
  { intros app_id c Hin. apply Hwf. by apply elem_of_map_to_list. }
  exists res. split; [done |]. intros app_id.
  rewrite Hlook. by rewrite list_to_map_to_list.
Qed.

Lemma load_has_settings (st : Store) (app_id : string) (c : entry) :
  _load_steam_apps_with_fsr_settings st !! app_id = Some c →
  is_Some (c !! "settings").
Proof.
  unfold _load_steam_apps_with_fsr_settings. rewrite lookup_fmap.
  destruct (AppSettings_load_steam_apps st !! app_id); simpl; [| done].
  intros [= <-]. rewrite lookup_insert_eq. by eexists.
Qed.

(** C9: an exported entry has exactly the public keys, its settings are the
    export form, and no entry of the disk cache that [_save_steam_lib] writes
    has a ['_showDetails'] or a ['userApp'] key. *)
Theorem export_keeps_public_keys_only (steam_apps : library) (st : Store) :
  dom (reduce_steam_apps_for_export steam_apps) = dom steam_apps
  ∧ map_Forall (λ _ e, dom e = public_keys)
      (reduce_steam_apps_for_export steam_apps)
  ∧ map_Forall (λ app_id e,
       reduce_steam_apps_for_export steam_apps !! app_id = Some (reduce_entry e)
       ∧ reduce_entry e !! "settings"
         = Some (to_js (settings (FsrMod_new e)) (Some true)))
      steam_apps
  ∧ ∃ kept st',
      _save_steam_lib steam_apps st = Ok (kept, st')
      ∧ map_Forall (λ _ e, dom e = public_keys
                           ∧ e !! "_showDetails" = None ∧ e !! "userApp" = None)
          (steam_apps_file st').
Proof.
  assert (∀ m : library,
    map_Forall (λ _ e, dom e = public_keys) (reduce_steam_apps_for_export m)) as Hdom.
  { intros m app_id e. unfold reduce_steam_apps_for_export. rewrite lookup_fmap.
    destruct (m !! app_id); simpl; [| done].
    intros [= <-]. apply reduce_entry_dom. }
  split; [| split; [| split]].
  - unfold reduce_steam_apps_for_export. apply dom_fmap_L.
  - apply Hdom.
  - intros app_id e He. split; [| apply reduce_entry_settings].
    unfold reduce_steam_apps_for_export. by rewrite lookup_fmap, He.
  - unfold _save_steam_lib. eexists _, _. split; [reflexivity |].
    simpl. intros app_id e He. split; [by apply (Hdom _ _ _ He) |].
    unfold reduce_steam_apps_for_export in He. rewrite lookup_fmap in He.
    destruct (_ !! app_id) as [e0 |]; simpl in He; [| done].
    injection He as <-. split; reflexivity.
Qed.

(** The restore loop of [get_steam_lib_fn] on its own: for an identifier that
    is both in the fresh scan and in the cache, it puts the cached
    ['settings'] and ['openVrDllPathsSelected'] on the scanned entry and
    leaves every other key of it, the candidate list and the size and name
    data among them, as the scan produced it. The cached entries are those
    the application wrote: each has its selected directories. *)
Lemma restore_loop_cached_win (scanned : library) (st : Store) :
  let cached := _load_steam_apps_with_fsr_settings st in
  (∀ app_id c, cached !! app_id = Some c → is_Some (scanned !! app_id) →
     is_Some (c !! "openVrDllPathsSelected")) →
  ∃ steam_apps : library,
    restore_cached_settings cached scanned = Ok steam_apps
    ∧ ∀ app_id fresh c,
        scanned !! app_id = Some fresh → cached !! app_id = Some c →
        ∃ e : entry,
          steam_apps !! app_id = Some e
          ∧ e !! "settings" = c !! "settings"
          ∧ e !! "openVrDllPathsSelected" = c !! "openVrDllPathsSelected"
          ∧ e !! "openVrDllPaths" = fresh !! "openVrDllPaths"
          ∧ e !! "name" = fresh !! "name"
          ∧ e !! "sizeGb" = fresh !! "sizeGb"
          ∧ e !! "SizeOnDisk" = fresh !! "SizeOnDisk"
          ∧ ∀ k, k ≠ "settings" → k ≠ "openVrDllPathsSelected" → e !! k = fresh !! k.
Proof.
  intros cached Hsel.
  assert (∀ app_id c, cached !! app_id = Some c → is_Some (scanned !! app_id) →
            is_Some (c !! "settings") ∧ is_Some (c !! "openVrDllPathsSelected")) as Hwf.
  { intros app_id c Hc Hs. split; [by eapply load_has_settings | by eapply Hsel]. }
  destruct (restore_cached_settings_lookup cached scanned Hwf) as (res & Hres & Hlook).
  exists res. split; [done |].
  intros app_id fresh c Hfresh Hc.
  destruct (Hwf app_id c Hc) as [[s Hs] [sel Hsel']]; [by eexists |].
  exists (with_cached c fresh).
  assert (∀ k, k ≠ "settings" → k ≠ "openVrDllPathsSelected" →
            with_cached c fresh !! k = fresh !! k) as Hother.
  { intros k Hk1 Hk2. unfold with_cached. by rewrite !lookup_insert_ne. }
  split; [by rewrite Hlook, Hfresh, Hc |].
  split.
  { unfold with_cached, get. rewrite lookup_insert_ne by done.
    by rewrite lookup_insert_eq, Hs. }
  split.
  { unfold with_cached, get. by rewrite lookup_insert_eq, Hsel'. }
  repeat (split; [by apply Hother |]). exact Hother.
Qed.

(** The store is only replaced by what [AppSettings.load] reads when the
    merged library is built. *)
Lemma merged_steam_lib_inv (scanned merged : library) (st st1 : Store) :
  merged_steam_lib scanned st = Ok (merged, st1) →
  st1 = AppSettings_load st
  ∧ ∃ res, restore_cached_settings (_load_steam_apps_with_fsr_settings st) scanned = Ok res
           ∧ merged = user_apps (attrs st1) ∪ res
           ∧ ∀ app_id, scanned !! app_id = None → res !! app_id = None.
Proof.
  unfold merged_steam_lib.
  destruct (restore_cached_settings _ scanned) as [res | e] eqn:Hres; simpl; [| done].
  intros [= <- <-]. split; [done |]. exists res. split; [done |]. split; [done |].
  intros app_id Hnone. revert res Hres. unfold restore_cached_settings.
  generalize (map_to_list (_load_steam_apps_with_fsr_settings st)).
  intros l. revert scanned Hnone.
  induction l as [| [k c] l IH]; intros acc Hnone res.
  - simpl. by intros [= <-].
  - rewrite for_each_cons.
    destruct (restore_cached_entry acc (k, c)) as [acc1 | e] eqn:Hstep; simpl; [| done].
    apply IH. unfold restore_cached_entry in Hstep.
    destruct (acc !! k) as [e |] eqn:Hk; [| by simplify_eq].
    destruct (getitem c "settings"); simpl in Hstep; [| done].
    destruct (getitem c "openVrDllPathsSelected"); simpl in Hstep; [| done].
    simplify_eq. rewrite lookup_insert_ne; [done | congruence].
Qed.

(** What [_save_steam_lib] does with the entries it takes for user entries. *)
Lemma save_moves_user_entries (steam_apps : library) (st : Store) :
  ∃ kept st',
    _save_steam_lib steam_apps st = Ok (kept, st')
    ∧ ∀ app_id e, steam_apps !! app_id = Some e → is_user_entry app_id e = true →
        user_apps (attrs st') !! app_id = Some (drop_show_details app_id e)
        ∧ steam_apps_file st' !! app_id = None
        ∧ kept !! app_id = None.
Proof.
  unfold _save_steam_lib. eexists _, _. split; [reflexivity |].
  intros app_id e He Huser. simpl.
  set (stripped := map_imap _ _).
  assert (stripped !! app_id = Some (drop_show_details app_id e)) as Hstripped.
  { unfold stripped. rewrite map_lookup_imap, He. done. }
  assert (filter (λ kv : string * entry, is_user_entry kv.1 kv.2 ≠ true) stripped
            !! app_id = None) as Hkept.
  { apply map_lookup_filter_None_2.
    right. intros e' He'. simpl. rewrite Hstripped in He'. simplify_eq.
    rewrite is_user_entry_drop, Huser. by intros []. }
  split; [| split; [| exact Hkept]].
  - apply lookup_union_Some_l, map_lookup_filter_Some. split; [done |].
    simpl. by rewrite is_user_entry_drop.
  - unfold reduce_steam_apps_for_export. by rewrite lookup_fmap, Hkept.
Qed.


(** X2: the disk cache that [_save_steam_lib] leaves can always be restored from:
    the loop of the next refresh finds both keys on every cached entry and
    does not raise, whatever the scan returns. *)
Theorem saved_cache_restores (steam_apps scanned : library) (st : Store) :
  match _save_steam_lib steam_apps st with
  | Ok (_, st') =>
      is_Ok (restore_cached_settings (_load_steam_apps_with_fsr_settings st') scanned)
      = true
  | Raise _ => False
  end.
Proof.
  unfold _save_steam_lib. simpl.
  set (kept := filter _ _).
  set (st' := AppSettings_save _).
  destruct (restore_cached_settings_lookup
              (_load_steam_apps_with_fsr_settings st') scanned) as (res & -> & _);
    [| done].
  intros app_id c Hc _. split; [by eapply load_has_settings |].
  unfold _load_steam_apps_with_fsr_settings, st' in Hc. simpl in Hc.
  unfold reduce_steam_apps_for_export in Hc. rewrite !lookup_fmap in Hc.
  destruct (kept !! app_id) as [e |]; simpl in Hc; [| done].
  injection Hc as <-. rewrite lookup_insert_ne by done. by eexists.
Qed.


Lemma is_user_entry_with_cached (app_id : string) (c fresh : entry) :
  is_user_entry app_id (with_cached c fresh) = is_user_entry app_id fresh.
Proof.
  unfold is_user_entry, with_cached, get_default.
  by rewrite !lookup_insert_ne.
Qed.


(** C2: the rule on [get_steam_lib_fn] itself. The Steam library can be read
    and the cached entries are those the application wrote (each has its
    selected directories). Then for every identifier that is in the fresh
    scan and in the cache, that is no identifier of the user registry as
    [AppSettings.load] reads it, and whose scanned entry is neither flagged
    as a user app nor carries the user prefix, the refresh succeeds and the
    entry it returns under ['data'] has the cached ['settings'] and
    ['openVrDllPathsSelected'] and the candidate list, the name and the sizes
    that the scan produced. *)
Theorem cached_settings_win (fs : filesystem) (st : Store) (lib : library) :
  read_steam_library fs = Ok lib →
  is_Some (lib !! STEAM_LIBRARY_FOLDERS) →
  let scanned := update_steam_apps fs (delete STEAM_LIBRARY_FOLDERS lib) in
  let cached := _load_steam_apps_with_fsr_settings st in
  (∀ app_id c, cached !! app_id = Some c → is_Some (scanned !! app_id) →
     is_Some (c !! "openVrDllPathsSelected")) →
  ∀ app_id fresh c,
    scanned !! app_id = Some fresh → cached !! app_id = Some c →
    user_apps (attrs (AppSettings_load st)) !! app_id = None →
    is_user_entry app_id fresh = false →
    cached_values_win fs st app_id fresh c.
Proof.
  intros Hread [folders Hfolders] scanned cached Hsel app_id fresh c Hfresh Hc Hreg Huser.
  assert (∀ app_id c, cached !! app_id = Some c → is_Some (scanned !! app_id) →
            is_Some (c !! "settings") ∧ is_Some (c !! "openVrDllPathsSelected")) as Hwf.
  { intros app_id' c' Hc' Hs. split; [by eapply load_has_settings | by eapply Hsel]. }
  destruct (restore_cached_settings_lookup cached scanned Hwf) as (res & Hres & Hlook).
  destruct (Hwf app_id c Hc) as [[s Hs] [sel Hsel']]; [by eexists |].
  assert (∀ k, k ≠ "_showDetails" →
            drop_show_details app_id (with_cached c fresh) !! k
            = with_cached c fresh !! k) as Hdrop.
  { intros k Hk. unfold drop_show_details.
    destruct (String.eqb app_id ""); [done |].
    destruct (truthy _); [| done]. by rewrite lookup_delete_ne. }
  assert (∀ k, k ≠ "settings" → k ≠ "openVrDllPathsSelected" → k ≠ "_showDetails" →
            drop_show_details app_id (with_cached c fresh) !! k = fresh !! k) as Hscan.
  { intros k Hk1 Hk2 Hk3. rewrite Hdrop by done. unfold with_cached.
    by rewrite !lookup_insert_ne. }
  unfold cached_values_win, get_steam_lib_fn. rewrite Hread. simpl.
  unfold getitem. rewrite Hfolders. simpl.
  unfold merged_steam_lib. fold scanned. fold cached. rewrite Hres. simpl.
  eexists _, _, (drop_show_details app_id (with_cached c fresh)).
  split; [reflexivity |].
  split.
  { apply map_lookup_filter_Some. split.
    - rewrite map_lookup_imap.
      rewrite lookup_union_r by done. by rewrite Hlook, Hfresh, Hc.
    - simpl. rewrite is_user_entry_drop, is_user_entry_with_cached, Huser. done. }
  split.
  { rewrite Hdrop by done. unfold with_cached, get.
    rewrite lookup_insert_ne by done. by rewrite lookup_insert_eq, Hs. }
  split.
  { rewrite Hdrop by done. unfold with_cached, get.
    by rewrite lookup_insert_eq, Hsel'. }
  repeat split; by apply Hscan.
Qed.

End library_facts.

(** ** The user registry *)

Section registry_facts.
Context `{G : Globals} `{FS : FsrSettingsApi} `{FM : !FsrModApi} `{SA : SteamApi}.


Lemma failure_result (msg : string) : failure msg !! "result" = Some (JBool false).
Proof. reflexivity. Qed.

Lemma success_result (msg : string) : success_ msg !! "result" = Some (JBool true).
Proof. reflexivity. Qed.

(** Every way [add_custom_app_fn] can return: a failure that leaves the store
    alone, or a registration under the next identifier. *)
Lemma add_custom_app_fn_inv (app : entry) (fs : filesystem) (st st' : Store) (r : response) :
  add_custom_app_fn app fs st = Ok (r, st') →
  (st' = st ∧ ∃ msg, r = failure msg)
  ∨ (∃ e msg,
       let counter := user_app_counter (attrs st) + 1 in
       let app_id := USER_APP_PREFIX +:+ format_03d counter in
       r = success_ msg
       ∧ e !! "appid" = Some (VStr app_id)
       ∧ e !! "userApp" = Some (VBool true)
       ∧ st' = AppSettings_save
                 (set_attrs (mkAppSettings (<[app_id := e]> (user_apps (attrs st))) counter) st)).
Proof.
  unfold add_custom_app_fn.
  destruct (get app "path") as [| b | z | [| c p] | l | items]; simpl;
    try discriminate; try (intros [= <- <-]; left; split; [done | by eexists]).
  destruct (path_exists fs (String c p)); simpl;
    [| intros [= <- <-]; left; split; [done | by eexists] ].
  destruct (find_registered_path _ _) as [[app_id e] |];
    [intros [= <- <-]; left; split; [done | by eexists] |].
  destruct (find_open_vr_dll fs (String c p)) as [| dll dlls] eqn:Hdlls;
    [intros [= <- <-]; left; split; [done | by eexists] |].
  destruct (read_cfg_results _ _ _) as [cfg_results f].
  intros [= <- <-]. right. eexists _, _. simpl. repeat split; reflexivity.
Qed.

Lemma find_registered_path_Some (posix app_id : string) (e : entry) (apps : library) :
  apps !! app_id = Some e → eq_str (get e "path") posix = true →
  is_Some (find_registered_path posix apps).
Proof.
  intros He Hpath. unfold find_registered_path.
  destruct (List.find _ _) as [kv |] eqn:Hfind; [by eexists |].
  assert (In (app_id, e) (map_to_list apps)) as Hin.
  { apply list_elem_of_In. by apply elem_of_map_to_list. }
  pose proof (find_none _ _ Hfind (app_id, e) Hin) as Hno. simpl in Hno. congruence.
Qed.

(** C7: when the identifier of the request is not a key of the user registry
    the deletion fails with a message and the store is as it was; when it is
    the key of a registered entry that entry, and no other, leaves the
    registry, the change is saved, and the call reports success. *)
Theorem remove_custom_app_fn_spec (app : entry) (st : Store) :
  (hashable (get app "appid") = true →
   (∀ s, get app "appid" = VStr s → user_apps (attrs st) !! s = None) →
   ∃ msg, remove_custom_app_fn app st = Ok (failure msg, st))
  ∧ (∀ s e, get app "appid" = VStr s → user_apps (attrs st) !! s = Some e →
     ∃ msg st',
       remove_custom_app_fn app st = Ok (success_ msg, st')
       ∧ user_apps (attrs st') = delete s (user_apps (attrs st))
       ∧ user_app_counter (attrs st') = user_app_counter (attrs st)
       ∧ settings_file st' = Some (attrs st')
       ∧ steam_apps_file st' = steam_apps_file st).
Proof.
  split.
  - intros Hhash Hnot. unfold remove_custom_app_fn.
    destruct (get app "appid") as [| b | z | s | l | items] eqn:Hid;
      try discriminate; simpl; try by eexists.
    rewrite (Hnot s eq_refl).
    rewrite bool_decide_eq_false_2 by (by intros [? ?]).
    simpl. by eexists.
  - intros s e Hid He. unfold remove_custom_app_fn. rewrite Hid. simpl.
    rewrite He. rewrite bool_decide_eq_true_2 by (by eexists).
    simpl. eexists _, _. split; [reflexivity |]. done.
Qed.

(** C10: a request without a path or with an empty one, with a path that does
    not exist, with a path an entry of the registry already has, or with a
    path that holds no OpenVR dll fails with a message and leaves the store,
    registry and counter included, as it was; and whenever the call returns,
    either the store is unchanged and the result is a failure, or the result
    is a success and the counter went up by one. *)
Theorem add_custom_app_fn_failures (app : entry) (fs : filesystem) (st : Store) :
  ((get app "path" = VNone ∨ get app "path" = VStr ""
    ∨ ∃ p, get app "path" = VStr p
           ∧ (path_exists fs p = false
              ∨ (∃ app_id e, user_apps (attrs st) !! app_id = Some e
                             ∧ get e "path" = VStr (as_posix p))
              ∨ find_open_vr_dll fs p = [])) →
   ∃ msg, add_custom_app_fn app fs st = Ok (failure msg, st))
  ∧ (∀ r st', add_custom_app_fn app fs st = Ok (r, st') →
       (r !! "result" = Some (JBool false) ∧ st' = st)
       ∨ (r !! "result" = Some (JBool true)
          ∧ user_app_counter (attrs st') = user_app_counter (attrs st) + 1)).
Proof.
  split.
  - intros [Hp | [Hp | (p & Hp & Hcase)]]; unfold add_custom_app_fn; rewrite Hp;
      [by eexists | by eexists |].
    destruct p as [| c p]; [by eexists |]. simpl.
    destruct (path_exists fs (String c p)) eqn:Hex; simpl; [| by eexists].
    destruct (find_registered_path _ _) as [[app_id e] |] eqn:Hfind; [by eexists |].
    destruct Hcase as [Hcase | [(app_id & e & He & Hpath) | Hcase]].
    + done.
    + destruct (find_registered_path_Some (as_posix (String c p)) app_id e
                  (user_apps (attrs st)) He) as [kv Hkv].
      { rewrite Hpath. simpl. apply String.eqb_refl. }
      congruence.
    + rewrite Hcase. by eexists.
  - intros r st' Hrun.
    destruct (add_custom_app_fn_inv _ _ _ _ _ Hrun)
      as [(-> & msg & ->) | (e & msg & -> & _ & _ & ->)]; [by left |].
    right. done.
Qed.

(** The identifiers a run registers all carry a counter above the one the
    run started from. *)
Lemma registered_ids_above (calls : list (entry * filesystem)) :
  ∀ (st : Store) (app_id : string),
    app_id ∈ registered_ids calls st →
    ∃ c, user_app_counter (attrs st) < c ∧ app_id = USER_APP_PREFIX +:+ format_03d c.
Proof.
  induction calls as [| [app fs] calls IH]; intros st app_id Hin; simpl in Hin.
  - by apply elem_of_nil in Hin.
  - destruct (add_custom_app_fn app fs st) as [[r st'] | e] eqn:Hrun; [| by apply IH].
    destruct (add_custom_app_fn_inv _ _ _ _ _ Hrun)
      as [(-> & msg & ->) | (e & msg & -> & _ & _ & ->)].
    + rewrite failure_result in Hin. by apply IH.
    + rewrite success_result in Hin. apply elem_of_cons in Hin as [-> | Hin].
      * eexists. split; [| reflexivity]. simpl. lia.
      * destruct (IH _ _ Hin) as (c & Hc & ->). exists c. split; [| done].
        simpl in Hc. lia.
Qed.

(** C8: a successful registration raises the counter by one and puts the new
    entry under the user prefix followed by the new counter value, zero-padded
    to three digits; the identifiers that the successful calls of any run of
    registrations produce are pairwise distinct. *)
Theorem add_custom_app_fn_ids :
  (∀ app fs st r st',
     add_custom_app_fn app fs st = Ok (r, st') →
     r !! "result" = Some (JBool true) →
     let counter := user_app_counter (attrs st) + 1 in
     let app_id := USER_APP_PREFIX +:+ format_03d counter in
     user_app_counter (attrs st') = counter
     ∧ ∃ e, user_apps (attrs st') = <[app_id := e]> (user_apps (attrs st))
            ∧ e !! "appid" = Some (VStr app_id))
  ∧ (∀ calls st, NoDup (registered_ids calls st)).
Proof.
  split.
  - intros app fs st r st' Hrun Hres.
    destruct (add_custom_app_fn_inv _ _ _ _ _ Hrun)
      as [(-> & msg & ->) | (e & msg & -> & Hid & _ & ->)]; [done |].
    split; [done |]. by exists e.
  - intros calls. induction calls as [| [app fs] calls IH]; intros st; simpl.
    + constructor.
    + destruct (add_custom_app_fn app fs st) as [[r st'] | e] eqn:Hrun; [| apply IH].
      destruct (add_custom_app_fn_inv _ _ _ _ _ Hrun)
        as [(-> & msg & ->) | (e & msg & -> & _ & _ & ->)].
      * rewrite failure_result. apply IH.
      * rewrite success_result. constructor; [| apply IH].
        intros Hin. apply registered_ids_above in Hin as (c & Hc & Heq).
        apply (inj (String.append USER_APP_PREFIX)) in Heq.
        apply format_03d_inj in Heq. simpl in Hc, Heq. lia.
Qed.

Lemma flagged_union (apps1 apps2 : library) :
  flagged apps1 → flagged apps2 → flagged (apps1 ∪ apps2).
Proof.
  intros H1 H2 app_id e He.
  apply lookup_union_Some_raw in He as [He | [_ He]]; [by eapply H1 | by eapply H2].
Qed.

Lemma registry_flagged_save (st : Store) :
  flagged (user_apps (attrs st)) → registry_flagged (AppSettings_save st).
Proof. intros Hflag. split; [done |]. simpl. by intros a [= <-]. Qed.

Lemma registry_flagged_load (st : Store) :
  registry_flagged st → registry_flagged (AppSettings_load st).
Proof.
  intros [Hmem Hfile]. unfold AppSettings_load.
  destruct (settings_file st) as [a |] eqn:Hdisk.
  - split; simpl; [by apply Hfile | exact Hfile].
  - split; [done | by rewrite Hdisk].
Qed.

Lemma append_not_empty (s t : string) : t ≠ "" → String.eqb (s +:+ t) "" = false.
Proof.
  intros Ht. apply String.eqb_neq. intros Heq.
  destruct s as [| c s]; [by apply Ht | discriminate Heq].
Qed.

(** X4: entries only enter the user registry flagged: whatever [add_custom_app_fn],
    [remove_custom_app_fn], [_save_steam_lib] and [get_steam_lib_fn] do to a
    store whose registry entries are all user entries, they leave such a
    store. *)
Theorem registry_stays_flagged (st : Store) :
  registry_flagged st →
  (∀ app fs r st', add_custom_app_fn app fs st = Ok (r, st') → registry_flagged st')
  ∧ (∀ app r st', remove_custom_app_fn app st = Ok (r, st') → registry_flagged st')
  ∧ (∀ steam_apps kept st',
       _save_steam_lib steam_apps st = Ok (kept, st') → registry_flagged st')
  ∧ (∀ fs r st', get_steam_lib_fn fs st = Ok (r, st') → registry_flagged st').
Proof.
  intros Hinv.
  assert (∀ steam_apps (st0 : Store) kept st',
    registry_flagged st0 →
    _save_steam_lib steam_apps st0 = Ok (kept, st') → registry_flagged st') as Hsave.
  { intros steam_apps st0 kept st' [Hmem _]. unfold _save_steam_lib.
    intros [= _ <-]. apply registry_flagged_save. simpl.
    apply flagged_union; [| done].
    intros app_id e He. by apply map_lookup_filter_Some in He as [_ He]. }
  split; [| split; [| split]].
  - intros app fs r st' Hrun.
    destruct (add_custom_app_fn_inv _ _ _ _ _ Hrun)
      as [(-> & _) | (e & msg & _ & _ & Huser & ->)]; [done |].
    apply registry_flagged_save. simpl. apply map_Forall_insert_2; [| exact (proj1 Hinv)].
    unfold is_user_entry, get_default. rewrite Huser. simpl.
    rewrite append_not_empty by apply format_03d_nonempty. done.
  - intros app r st'. unfold remove_custom_app_fn.
    destruct (get app "appid") as [| b | z | s | l | items]; simpl;
      try (by intros [= _ <-]); try done.
    destruct (user_apps (attrs st) !! s) as [e |] eqn:He.
    + rewrite bool_decide_eq_true_2 by (by eexists). simpl.
      intros [= _ <-]. apply registry_flagged_save. simpl.
      apply map_Forall_delete. exact (proj1 Hinv).
    + rewrite bool_decide_eq_false_2 by (by intros [? ?]). simpl.
      by intros [= _ <-].
  - intros steam_apps kept st'. by apply Hsave.
  - intros fs r st'. unfold get_steam_lib_fn.
    destruct (read_steam_library fs) as [lib | e]; simpl; [| by intros [= _ <-] ].
    destruct (getitem lib STEAM_LIBRARY_FOLDERS) as [folders | e]; simpl;
      [| by intros [= _ <-] ].
    destruct (merged_steam_lib _ st) as [[merged st1] | e] eqn:Hmerged; [| done].
    apply merged_steam_lib_inv in Hmerged as [-> _].
    destruct (save_moves_user_entries merged (AppSettings_load st))
      as (kept & st2 & Hrun & _).
    change (match _save_steam_lib merged (AppSettings_load st) with
            | Ok (steam_apps, st0) =>
                Ok ({[ "result" := JBool true; "data" := JLibrary steam_apps ]}, st0)
            | Raise e =>
                Ok ({[ "result" := JBool false;
                       "msg" := JVal (VStr ("Error saving Steam Lib data: "
                                            +:+ format_exn e)) ]},
                    AppSettings_load st)
            end = Ok (r, st') → registry_flagged st').
    rewrite Hrun. intros [= _ <-].
    eapply Hsave; [| exact Hrun]. by apply registry_flagged_load.
Qed.

End registry_facts.

(** ** The mod operations *)

Section mod_operation_facts.
Context `{G : Globals} `{FS : FsrSettingsApi} `{FM : !FsrModApi} `{SA : SteamApi}.

Lemma set_manifest_lookup (fsr : FsrMod) (k k' : string) (v : value) :
  manifest (set_manifest fsr k v) !! k'
  = if decide (k = k') then Some v else manifest fsr !! k'.
Proof. unfold set_manifest. simpl. apply lookup_insert. Qed.

Lemma set_manifest_error (fsr : FsrMod) (k : string) (v : value) :
  error (set_manifest fsr k v) = error fsr.
Proof. reflexivity. Qed.

(** C4: the manifest that [install_fsr_fn] returns has the probed version
    under ['fsrVersion'] when the install succeeded, the one that
    [uninstall_fsr_fn] returns has the empty string there when the uninstall
    succeeded, and after a failure the returned manifest is the mod's own,
    version included; no other key is written in either case. *)
Theorem version_follows_install (m : entry) (fs : filesystem) :
  (let '(install_result, fsr, fs1) := install (FsrMod_new m) fs in
   ∃ man,
     (install_fsr_fn m fs).1 !! "manifest" = Some (JEntry man)
     ∧ man !! "fsrVersion"
       = (if install_result then Some (get_fsr_version fsr fs1)
          else manifest fsr !! "fsrVersion")
     ∧ (if install_result then True else man = manifest fsr)
     ∧ ∀ k, k ≠ "fsrVersion" → man !! k = manifest fsr !! k)
  ∧ (let '(uninstall_result, fsr, fs1) := uninstall (FsrMod_new m) fs in
     ∃ man,
       (uninstall_fsr_fn m fs).1 !! "manifest" = Some (JEntry man)
       ∧ man !! "fsrVersion"
         = (if uninstall_result then Some (VStr "")
            else manifest fsr !! "fsrVersion")
       ∧ (if uninstall_result then True else man = manifest fsr)
       ∧ ∀ k, k ≠ "fsrVersion" → man !! k = manifest fsr !! k).
Proof.
  split.
  - unfold install_fsr_fn.
    destruct (install (FsrMod_new m) fs) as [[[] fsr] fs1]; simpl;
      eexists; (split; [reflexivity |]).
    + rewrite lookup_insert_eq. repeat split; [].
      intros k Hk. by rewrite lookup_insert_ne.
    + done.
  - unfold uninstall_fsr_fn.
    destruct (uninstall (FsrMod_new m) fs) as [[[] fsr] fs1]; simpl;
      eexists; (split; [reflexivity |]).
    + rewrite lookup_insert_eq. repeat split; [].
      intros k Hk. by rewrite lookup_insert_ne.
    + done.
Qed.

(** C5: each of [update_fsr_fn], [install_fsr_fn] and [uninstall_fsr_fn]
    returns exactly the keys ['result'], ['msg'] and ['manifest']: a boolean,
    the error of the mod object, and the manifest of the mod object as the
    operation left it, whether the operation succeeded or not. *)
Theorem mod_operations_structured (m : entry) (fs : filesystem) :
  (let '(cfg_result, fsr, fs1) := update_cfg (FsrMod_new m) fs in
   let r := (update_fsr_fn m fs).1 in
   dom r = {[ "result"; "msg"; "manifest" ]}
   ∧ r !! "result" = Some (JBool (cfg_result && negb (truthy (error fsr))))
   ∧ r !! "msg" = Some (JVal (error fsr))
   ∧ ∃ man, r !! "manifest" = Some (JEntry man)
            ∧ ∀ k, k ≠ "fsrVersion" → man !! k = manifest fsr !! k)
  ∧ (let '(install_result, fsr, fs1) := install (FsrMod_new m) fs in
     let r := (install_fsr_fn m fs).1 in
     dom r = {[ "result"; "msg"; "manifest" ]}
     ∧ r !! "result" = Some (JBool install_result)
     ∧ r !! "msg" = Some (JVal (error fsr))
     ∧ ∃ man, r !! "manifest" = Some (JEntry man)
              ∧ ∀ k, k ≠ "fsrVersion" → man !! k = manifest fsr !! k)
  ∧ (let '(uninstall_result, fsr, fs1) := uninstall (FsrMod_new m) fs in
     let r := (uninstall_fsr_fn m fs).1 in
     dom r = {[ "result"; "msg"; "manifest" ]}
     ∧ r !! "result" = Some (JBool uninstall_result)
     ∧ r !! "msg" = Some (JVal (error fsr))
     ∧ ∃ man, r !! "manifest" = Some (JEntry man)
              ∧ ∀ k, k ≠ "fsrVersion" → man !! k = manifest fsr !! k).
Proof.
  assert (∀ (a b c : jval),
    dom ({[ "result" := a; "msg" := b; "manifest" := c ]} : response)
    = {[ "result"; "msg"; "manifest" ]}) as Hdom.
  { intros a b c. rewrite !dom_insert_L, dom_singleton_L. set_solver. }
  split; [| split].
  - unfold update_fsr_fn.
    destruct (update_cfg (FsrMod_new m) fs) as [[[] fsr] fs1]; simpl;
      (split; [apply Hdom |]); (split; [reflexivity |]); (split; [reflexivity |]);
      eexists; (split; [reflexivity |]); intros k Hk; [| done].
    by rewrite lookup_insert_ne.
  - unfold install_fsr_fn.
    destruct (install (FsrMod_new m) fs) as [[[] fsr] fs1]; simpl;
      (split; [apply Hdom |]); (split; [reflexivity |]); (split; [reflexivity |]);
      eexists; (split; [reflexivity |]); intros k Hk; [| done].
    by rewrite lookup_insert_ne.
  - unfold uninstall_fsr_fn.
    destruct (uninstall (FsrMod_new m) fs) as [[[] fsr] fs1]; simpl;
      (split; [apply Hdom |]); (split; [reflexivity |]); (split; [reflexivity |]);
      eexists; (split; [reflexivity |]); intros k Hk; [| done].
    by rewrite lookup_insert_ne.
Qed.

End mod_operation_facts.

(** ** app/mod/mod_utils.py *)

Section mod_utils_facts.
Context `{BM : BaseModType}.

(** C6: for a mod type of the table, [check_mod_data_dir] returns [True]
    exactly when the path is not empty, exists, and the mod's binary and its
    config file both exist directly under it; in every other case, a missing
    path included, it returns [False]. *)
Theorem check_mod_data_dir_spec (mod_type : Z) (fs : filesystem) (mod_ : BaseMod) :
  get_mod ∅ mod_type = Ok mod_ →
  (∀ s : string,
     ∃ b : bool,
       check_mod_data_dir (VStr s) mod_type fs = Ok b
       ∧ (b = true ↔
            s ≠ ""
            ∧ path_exists fs s = true
            ∧ path_exists fs (joinpath s (DLL_NAME mod_)) = true
            ∧ path_exists fs (joinpath s (CFG_FILE mod_)) = true))
  ∧ check_mod_data_dir VNone mod_type fs = Ok false.
Proof.
  intros Hmod. split; [| reflexivity].
  intros s. unfold check_mod_data_dir. simpl.
  destruct (String.eqb_spec s "") as [-> | Hs]; simpl.
  { exists false. split; [done |]. split; [done | by intros [? _]]. }
  destruct (path_exists fs s) eqn:Hdir; simpl.
  2: { exists false. split; [done |]. split; [done | by intros (_ & ? & _)]. }
  rewrite Hmod. simpl.
  destruct (path_exists fs (joinpath s (DLL_NAME mod_))) eqn:Hdll; simpl.
  2: { exists false. split; [done |]. split; [done | by intros (_ & _ & ? & _)]. }
  destruct (path_exists fs (joinpath s (CFG_FILE mod_))) eqn:Hcfg; simpl.
  - exists true. split; [done |]. done.
  - exists false. split; [done |]. split; [done | by intros (_ & _ & _ & ?)].
Qed.

End mod_utils_facts.

(** ** The installation state machine *)

Module InstallationFacts.
Import Installation.

Lemma append_cons (c : ascii) (s t : string) : String c s +:+ t = String c (s +:+ t).
Proof. reflexivity. Qed.

Lemma append_empty_r (s : string) : s +:+ "" = s.
Proof. induction s as [| c s IH]; [done |]. by rewrite append_cons, IH. Qed.

Lemma append_length (s1 s2 : string) :
  String.length (s1 +:+ s2) = (String.length s1 + String.length s2)%nat.
Proof.
  induction s1 as [| c s1 IH]; [done |]. rewrite append_cons. simpl. by rewrite IH.
Qed.

Lemma split_ext_app (name : string) :
  (split_ext name).1 +:+ (split_ext name).2 = name.
Proof.
  induction name as [| c rest IH]; [done |]. simpl.
  destruct (split_ext rest) as [stem [| c' ext]]; simpl in *.
  - destruct (Ascii.eqb c "."%char); simpl.
    + rewrite append_empty_r in IH. by subst rest.
    + by rewrite append_cons, IH.
  - by rewrite append_cons, IH.
Qed.

Lemma backup_name_length (name : string) :
  String.length (backup_name name) = (String.length name + 5)%nat.
Proof.
  unfold backup_name. pose proof (split_ext_app name) as Happ.
  destruct (split_ext name) as [stem ext]. simpl in Happ.
  rewrite <- Happ, !append_length. simpl. lia.
Qed.

Lemma backup_name_ne (name : string) : backup_name name ≠ name.
Proof.
  intros Heq. pose proof (backup_name_length name) as Hlen.
  rewrite Heq in Hlen. lia.
Qed.

Lemma joinpath_inj (d a b : string) : joinpath d a = joinpath d b → a = b.
Proof.
  unfold joinpath. intros Heq.
  apply (inj (String.append d)) in Heq. by injection Heq.
Qed.

(** C1, as amended: in a writable host directory that is [Absent], holds a
    binary at the target path and no backup file of the reserved name, the
    first toggle succeeds, leaves the original under
    [<original-stem>.orig<ext>], writes the config file and puts the payload
    at the target; the second toggle succeeds, restores the original, removes
    backup and config file, and the directory is [Absent] again, with the
    file system exactly as it was. *)
Theorem toggle_twice_restores (mt : ModType) (cfg d : string) (fs : filesystem)
  (original : string) :
  distinct_names mt →
  dirs fs !! d = Some true →
  files fs !! target_path mt d = Some original →
  state_of mt d fs = Absent →
  files fs !! backup_path mt d = None →
  toggles_restore mt cfg d fs original
  ∧ (toggle_install mt cfg d (toggle_install mt cfg d fs).2).2 = fs.
Proof.
  intros [Hcb Hcbk] Hdir Htarget Habsent Hbackup.
  assert (target_path mt d ≠ backup_path mt d) as Htb.
  { intros Heq. apply joinpath_inj in Heq. symmetry in Heq.
    by apply backup_name_ne in Heq. }
  assert (config_path mt d ≠ target_path mt d) as Hct.
  { intros Heq. by apply joinpath_inj in Heq. }
  assert (config_path mt d ≠ backup_path mt d) as Hcbp.
  { intros Heq. by apply joinpath_inj in Heq. }
  assert (files fs !! config_path mt d = None ∧ dirs fs !! config_path mt d = None)
    as [Hcfg Hcfgdir].
  { unfold state_of, is_present, path_exists in Habsent.
    rewrite Htarget in Habsent.
    rewrite (bool_decide_eq_true_2 (is_Some (Some original))) in Habsent by by eexists.
    rewrite orb_true_r in Habsent. simpl in Habsent.
    destruct (files fs !! config_path mt d), (dirs fs !! config_path mt d);
      simpl in Habsent; try done.
    all: rewrite ?bool_decide_eq_true_2 in Habsent by (by eexists); done. }
  unfold toggles_restore.
  assert (toggle_install mt cfg d fs
          = (mkOutcome true None,
             write_file (config_path mt d) cfg
               (write_file (target_path mt d) (payload mt)
                  (rename_file (target_path mt d) (backup_path mt d) fs)))) as Hfirst.
  { unfold toggle_install. rewrite Habsent. unfold install.
    by rewrite Hdir, Htarget, Hbackup. }
  rewrite Hfirst.
  set (fs1 := write_file _ _ _).
  assert (files fs1 = <[config_path mt d := cfg]>
                        (<[target_path mt d := payload mt]>
                           (<[backup_path mt d := original]>
                              (delete (target_path mt d) (files fs))))) as Hfiles1.
  { unfold fs1, write_file, rename_file. by rewrite Htarget. }
  assert (dirs fs1 = dirs fs) as Hdirs1.
  { unfold fs1, write_file, rename_file. by rewrite Htarget. }
  clearbody fs1.
  assert (files fs1 !! backup_path mt d = Some original) as Hb1.
  { rewrite Hfiles1. rewrite lookup_insert_ne by done.
    rewrite lookup_insert_ne by done. apply lookup_insert_eq. }
  assert (files fs1 !! config_path mt d = Some cfg) as Hc1.
  { rewrite Hfiles1. apply lookup_insert_eq. }
  assert (files fs1 !! target_path mt d = Some (payload mt)) as Ht1.
  { rewrite Hfiles1. rewrite lookup_insert_ne by done. apply lookup_insert_eq. }
  assert (state_of mt d fs1 = Installed) as Hinstalled.
  { unfold state_of, is_present, path_exists. rewrite Ht1, Hc1.
    rewrite !(bool_decide_eq_true_2 (is_Some (Some _))) by (by eexists).
    by rewrite !orb_true_r. }
  set (files2 := <[target_path mt d := original]>
                   (delete (backup_path mt d) (delete (config_path mt d) (files fs1)))).
  assert (toggle_install mt cfg d fs1 = (mkOutcome true None, Filesystem (dirs fs1) files2))
    as Hsecond.
  { unfold toggle_install. rewrite Hinstalled. unfold uninstall. rewrite Hinstalled.
    unfold delete_file, rename_file. simpl.
    rewrite lookup_delete_ne by done. by rewrite Hb1. }
  rewrite Hsecond. simpl.
  assert (files2 = files fs) as Hfiles2.
  { apply map_eq. intros p. unfold files2. rewrite Hfiles1.
    destruct (decide (p = target_path mt d)) as [-> | Hpt].
    { by rewrite lookup_insert_eq. }
    rewrite lookup_insert_ne by done.
    destruct (decide (p = backup_path mt d)) as [-> | Hpb].
    { by rewrite lookup_delete_eq. }
    rewrite lookup_delete_ne by done.
    destruct (decide (p = config_path mt d)) as [-> | Hpc].
    { by rewrite lookup_delete_eq. }
    rewrite lookup_delete_ne by done.
    rewrite !lookup_insert_ne by done. by rewrite lookup_delete_ne. }
  rewrite Hfiles2, Hdirs1.
  split; [| rewrite Hsecond; simpl; rewrite Hfiles2, Hdirs1; by destruct fs].
  split; [done |].
  repeat (split; [done |]).
  destruct fs as [ds fl]. exact Habsent.
Qed.

End InstallationFacts.

(** ** The statements above on the concrete configuration *)

Section on_demo.
#[local] Existing Instances Demo.globals Demo.fsr_settings Demo.fsr_mod Demo.steam
  Demo.base_mod_type.

Lemma cached_settings_win_demo :
  cached_values_win Demo.fs Demo.store "250820" Demo.game DemoRest.loaded_cached_game
  ∧ DemoRest.loaded_cached_game !! "openVrDllPathsSelected" = Some (VList [])
  ∧ Demo.game !! "openVrDllPathsSelected" = Some (VList [VStr "game/openvr_api.dll"]).
Proof.
  split; [| split; reflexivity].
  apply (cached_settings_win Demo.fs Demo.store
           (<["libraryfolders" := ∅]> (<["250820" := Demo.game]> ∅))).
  - reflexivity.
  - exists ∅. reflexivity.
  - intros app_id c Hc _.
    apply (map_Forall_to_list
             (λ _ (c : entry), is_Some (c !! "openVrDllPathsSelected"))
             (_load_steam_apps_with_fsr_settings Demo.store)) in Hc; [exact Hc |].
    vm_compute map_to_list. repeat constructor; by eexists.
  - reflexivity.
  - reflexivity.
  - reflexivity.
  - reflexivity.
Defined.


Lemma succeeded_inv {S} (r : result (response * S)) :
  succeeded r = true → ∃ resp s, r = Ok (resp, s) ∧ resp !! "result" = Some (JBool true).
Proof.
  destruct r as [[resp s] | e]; [| discriminate]. simpl. intros Hres.
  exists resp, s. split; [done |].
  destruct (resp !! "result") as [[[] | | |] |]; done.
Qed.

Lemma remove_custom_app_fn_demo :
  (∃ msg, remove_custom_app_fn Demo.unknown_app Demo.store = Ok (failure msg, Demo.store))
  ∧ ∃ msg st',
      remove_custom_app_fn Demo.user_game Demo.store = Ok (success_ msg, st')
      ∧ user_apps (attrs st') = delete "#Usr001" (user_apps (attrs Demo.store))
      ∧ user_apps (attrs st') !! "#Usr001" = None.
Proof.
  split.
  - apply (proj1 (remove_custom_app_fn_spec Demo.unknown_app Demo.store)).
    + reflexivity.
    + intros s Hs. vm_compute in Hs. injection Hs as <-. reflexivity.
  - destruct (proj2 (remove_custom_app_fn_spec Demo.user_game Demo.store)
                "#Usr001" Demo.user_game) as (msg & st' & Hrun & Hreg & _);
      [reflexivity | reflexivity |].
    exists msg, st'. split; [assumption |]. split; [assumption |].
    rewrite Hreg. apply lookup_delete_eq.
Defined.

Lemma add_custom_app_fn_ids_demo :
  (∃ r st',
     add_custom_app_fn Demo.new_app Demo.fs Demo.store = Ok (r, st')
     ∧ user_app_counter (attrs st') = 2
     ∧ is_Some (user_apps (attrs st') !! "#Usr002"))
  ∧ NoDup (registered_ids [(Demo.new_app, Demo.fs); (Demo.no_path_app, Demo.fs)] Demo.store).
Proof.
  split; [| apply (proj2 add_custom_app_fn_ids)].
  destruct (succeeded_inv (add_custom_app_fn Demo.new_app Demo.fs Demo.store))
    as (r & st' & Hrun & Hres); [by vm_compute |].
  destruct (proj1 add_custom_app_fn_ids _ _ _ _ _ Hrun Hres) as (Hcounter & e & Hreg & _).
  exists r, st'. split; [assumption |]. split; [assumption |].
  rewrite Hreg. exists e. apply lookup_insert_eq.
Defined.

Lemma add_custom_app_fn_failures_demo :
  (∃ msg, add_custom_app_fn Demo.no_path_app Demo.fs Demo.store
          = Ok (failure msg, Demo.store))
  ∧ ∃ r st',
      add_custom_app_fn Demo.new_app Demo.fs Demo.store = Ok (r, st')
      ∧ user_app_counter (attrs st') = 2.
Proof.
  split.
  - apply (proj1 (add_custom_app_fn_failures Demo.no_path_app Demo.fs Demo.store)).
    left. reflexivity.
  - destruct (succeeded_inv (add_custom_app_fn Demo.new_app Demo.fs Demo.store))
      as (r & st' & Hrun & Hres); [by vm_compute |].
    exists r, st'. split; [assumption |].
    destruct (proj2 (add_custom_app_fn_failures Demo.new_app Demo.fs Demo.store) r st' Hrun)
      as [[Hfalse _] | [_ Hcounter]]; [congruence | exact Hcounter].
Defined.

Lemma registry_stays_flagged_demo :
  registry_flagged Demo.store
  ∧ ∀ r st', add_custom_app_fn Demo.new_app Demo.fs Demo.store = Ok (r, st') →
             registry_flagged st'.
Proof.
  assert (registry_flagged Demo.store) as Hinv.
  { assert (flagged (user_apps (attrs Demo.store))) as Hflag.
    { apply map_Forall_insert_2; [reflexivity | apply map_Forall_empty]. }
    split; [exact Hflag |]. intros a Ha. injection Ha as <-. exact Hflag. }
  split; [exact Hinv |].
  intros r st'. apply (proj1 (registry_stays_flagged Demo.store Hinv)).
Defined.



(** The mod operations on the concrete mod: an install into a writable
    directory records the probed version, one into a read-only directory
    fails and leaves the manifest without a version. *)
Example install_fsr_fn_demo :
  (∃ man, (install_fsr_fn Demo.game Demo.fs).1 !! "manifest" = Some (JEntry man)
          ∧ man !! "fsrVersion" = Some (VStr "v2.1.1"))
  ∧ (install_fsr_fn Demo.game Demo.fs).1 !! "result" = Some (JBool true)
  ∧ (∃ man, (install_fsr_fn Demo.readonly_game Demo.fs).1 !! "manifest" = Some (JEntry man)
            ∧ man !! "fsrVersion" = None)
  ∧ (install_fsr_fn Demo.readonly_game Demo.fs).1 !! "result" = Some (JBool false)
  ∧ (install_fsr_fn Demo.readonly_game Demo.fs).1 !! "msg"
    = Some (JVal (VStr "Could not install to every directory.")).
Proof.
  split; [eexists; split; [reflexivity | reflexivity] |].
  split; [reflexivity |].
  split; [eexists; split; [reflexivity | reflexivity] |].
  split; reflexivity.
Qed.

Lemma check_mod_data_dir_demo :
  check_mod_data_dir (VStr "mods") 0 Demo.mod_fs = Ok true
  ∧ check_mod_data_dir (VStr "empty") 0 Demo.mod_fs = Ok false
  ∧ check_mod_data_dir VNone 0 Demo.mod_fs = Ok false.
Proof.
  pose proof (check_mod_data_dir_spec 0 Demo.mod_fs
                (mkBaseMod "openvr_api.dll" "openvr_mod.cfg" ∅) eq_refl)
    as [Hstr Hnone].
  split; [| split; [| exact Hnone]].
  - destruct (Hstr "mods") as (b & Hrun & Hiff).
    rewrite Hrun. f_equal. apply Hiff. repeat split; reflexivity || discriminate.
  - destruct (Hstr "empty") as ([] & Hrun & Hiff); [| exact Hrun].
    destruct (proj1 Hiff eq_refl) as (_ & _ & Hdll & _). vm_compute in Hdll.
    discriminate.
Defined.

Lemma toggle_twice_restores_demo :
  Installation.toggles_restore Demo.openvr_fsr "enabled=1" "game" Demo.fs "original"
  ∧ (Installation.toggle_install Demo.openvr_fsr "enabled=1" "game"
       (Installation.toggle_install Demo.openvr_fsr "enabled=1" "game" Demo.fs).2).2
    = Demo.fs.
Proof.
  apply InstallationFacts.toggle_twice_restores.
  - split; intros Heq; vm_compute in Heq; discriminate.
  - reflexivity.
  - reflexivity.
  - reflexivity.
  - reflexivity.
Defined.

(** The boundary case of the state machine: without a binary in place the
    install makes no backup, and the uninstall that follows removes the
    binary and the config file. *)
Example toggle_without_binary :
  let fs0 := Filesystem (<["game" := true]> ∅) ∅ in
  let '(o1, fs1) := Installation.toggle_install Demo.openvr_fsr "enabled=1" "game" fs0 in
  let '(o2, fs2) := Installation.toggle_install Demo.openvr_fsr "enabled=1" "game" fs1 in
  Installation.success o1 = true
  ∧ files fs1 !! "game/openvr_api.orig.dll" = None
  ∧ is_Some (files fs1 !! "game/openvr_api.dll")
  ∧ Installation.success o2 = true
  ∧ files fs2 = ∅.
Proof. vm_compute. repeat split. by eexists. Qed.

(** The state machine on a directory that cannot be written to. *)
Example install_read_only :
  Installation.install Demo.openvr_fsr "enabled=1" "readonly" Demo.fs
  = (Installation.mkOutcome false (Some Installation.PathUnavailable), Demo.fs).
Proof. reflexivity. Qed.

(** C1, as stated, fails where an earlier backup is in the directory: the
    backup is trusted, the binary in place is overwritten, and the second
    toggle puts the earlier backup at the target path. *)
Lemma toggle_with_stale_backup :
  Installation.distinct_names Demo.openvr_fsr
  ∧ dirs Demo.stale_fs !! "game" = Some true
  ∧ files Demo.stale_fs !! Installation.target_path Demo.openvr_fsr "game"
    = Some "original"
  ∧ Installation.state_of Demo.openvr_fsr "game" Demo.stale_fs = Installation.Absent
  ∧ files (Installation.toggle_install Demo.openvr_fsr "enabled=1" "game"
             (Installation.toggle_install Demo.openvr_fsr "enabled=1" "game"
                Demo.stale_fs).2).2
      !! Installation.target_path Demo.openvr_fsr "game" = Some "older"
  ∧ ¬ Installation.toggles_restore Demo.openvr_fsr "enabled=1" "game" Demo.stale_fs
        "original".
Proof.
  split; [split; intros Heq; vm_compute in Heq; discriminate |].
  split; [reflexivity |]. split; [reflexivity |]. split; [reflexivity |].
  split; [by vm_compute |].
  intros Hclaim. vm_compute in Hclaim.
  destruct Hclaim as (_ & _ & Htarget & _). discriminate.
Qed.

End on_demo.

(** ** Loading, refreshing and saving the library, together *)

Section library_rest_facts.
Context `{G : Globals} `{FS : FsrSettingsApi} `{FM : !FsrModApi} `{SA : SteamApi}.

Lemma eq_str_true (v : value) (s : string) : eq_str v s = true ↔ v = VStr s.
Proof.
  destruct v as [| b | z | s' | l | items]; simpl; try (split; [done | discriminate]).
  rewrite String.eqb_eq. split; [by intros -> | by intros [= ->] ].
Qed.

Lemma load_lookup (st : Store) (app_id : string) :
  _load_steam_apps_with_fsr_settings st !! app_id
  = (λ c : entry, <["settings" := to_js (settings (FsrMod_new c)) (Some false)]> c)
      <$> steam_apps_file st !! app_id.
Proof. unfold _load_steam_apps_with_fsr_settings. by rewrite lookup_fmap. Qed.

Lemma load_empty (st : Store) :
  _load_steam_apps_with_fsr_settings st = ∅ ↔ steam_apps_file st = ∅.
Proof. unfold _load_steam_apps_with_fsr_settings. apply fmap_empty_iff. Qed.

(** Every way [get_steam_lib_fn] can return. *)
Lemma get_steam_lib_fn_inv (fs : filesystem) (st st' : Store) (r : response) :
  get_steam_lib_fn fs st = Ok (r, st') →
  (st' = st ∧ ∃ msg, r = failure msg)
  ∨ (∃ lib merged st1 kept,
       read_steam_library fs = Ok lib
       ∧ is_Some (lib !! STEAM_LIBRARY_FOLDERS)
       ∧ merged_steam_lib (update_steam_apps fs (delete STEAM_LIBRARY_FOLDERS lib)) st
         = Ok (merged, st1)
       ∧ _save_steam_lib merged st1 = Ok (kept, st')
       ∧ r = {[ "result" := JBool true; "data" := JLibrary kept ]}).
Proof.
  unfold get_steam_lib_fn.
  destruct (read_steam_library fs) as [lib | e]; simpl;
    [| intros [= <- <-]; left; split; [done | by eexists] ].
  unfold getitem.
  destruct (lib !! STEAM_LIBRARY_FOLDERS) as [folders |] eqn:Hfolders; simpl;
    [| intros [= <- <-]; left; split; [done | by eexists] ].
  destruct (merged_steam_lib _ st) as [[merged st1] | e] eqn:Hmerged; [| done].
  destruct (save_moves_user_entries merged st1) as (kept & st2 & Hsave & _).
  intros Hret.
  change (match _save_steam_lib merged st1 with
          | Ok (steam_apps, st0) =>
              Ok ({[ "result" := JBool true; "data" := JLibrary steam_apps ]}, st0)
          | Raise e =>
              Ok ({[ "result" := JBool false;
                     "msg" := JVal (VStr ("Error saving Steam Lib data: "
                                          +:+ format_exn e)) ]}, st1)
          end = Ok (r, st')) in Hret.
  rewrite Hsave in Hret. injection Hret as <- <-. right.
  exists lib, merged, st1, kept. repeat split; done.
Qed.


Lemma reduce_entry_copied (e : entry) :
  Forall (λ k, reduce_entry e !! k = Some (get e k)) copied_keys.
Proof. unfold copied_keys. repeat constructor. Qed.

Lemma load_data_lookup (st : Store) (app_id : string) :
  (user_apps (attrs st) ∪ _load_steam_apps_with_fsr_settings st) !! app_id
  = match user_apps (attrs st) !! app_id with
    | Some e => Some e
    | None =>
        (λ c : entry, <["settings" := to_js (settings (FsrMod_new c)) (Some false)]> c)
          <$> steam_apps_file st !! app_id
    end.
Proof.
  rewrite lookup_union, load_lookup.
  destruct (user_apps (attrs st) !! app_id) as [e |]; simpl;
    [by destruct (_ <$> _) | by destruct (_ <$> _)].
Qed.

Lemma load_rescan (version : string) (previous_version : value) (st : Store) :
  (if bool_decide (size (_load_steam_apps_with_fsr_settings st) = 0%nat) then true
   else if negb (eq_str previous_version version) then true else false) = false
  ↔ previous_version = VStr version ∧ steam_apps_file st ≠ ∅.
Proof.
  destruct (eq_str previous_version version) eqn:Heq; simpl.
  - apply eq_str_true in Heq as ->.
    case_bool_decide as Hsize.
    + apply map_size_empty_iff, load_empty in Hsize. split; [done | by intros [_ ?]].
    + split; [| done]. intros _. split; [done |].
      intros Hempty. apply Hsize, map_size_empty_iff, load_empty, Hempty.
  - assert (previous_version ≠ VStr version) as Hne.
    { intros Hv. apply eq_str_true in Hv. congruence. }
    case_bool_decide; (split; [done | by intros [? _]]).
Qed.

(** X5: [load_steam_lib_fn] always reports success; its data holds every
    entry of the user registry as it is, every other cached entry with its
    settings in the internal form, and nothing else; a rescan is asked for
    exactly when the version differs from the previous one or the disk cache
    is empty, however many user apps there are. *)
Theorem load_steam_lib_fn_spec (version : string) (previous_version : value) (st : Store) :
  ∃ data rescan,
    load_steam_lib_fn version previous_version st
    = {[ "result" := JBool true; "data" := JLibrary data;
         "reScanRequired" := JBool rescan ]}
    ∧ (∀ app_id,
         data !! app_id
         = match user_apps (attrs st) !! app_id with
           | Some e => Some e
           | None =>
               (λ c : entry,
                  <["settings" := to_js (settings (FsrMod_new c)) (Some false)]> c)
                 <$> steam_apps_file st !! app_id
           end)
    ∧ (rescan = false ↔ previous_version = VStr version ∧ steam_apps_file st ≠ ∅).
Proof.
  unfold load_steam_lib_fn. eexists _, _. split; [reflexivity |].
  split; [apply load_data_lookup | apply load_rescan].
Qed.

Lemma save_cache (steam_apps kept : library) (st st' : Store) :
  _save_steam_lib steam_apps st = Ok (kept, st') →
  steam_apps_file st' = reduce_steam_apps_for_export kept
  ∧ settings_file st' = Some (attrs st')
  ∧ user_app_counter (attrs st') = user_app_counter (attrs st)
  ∧ kept = filter (λ kv, is_user_entry kv.1 kv.2 ≠ true)
             (map_imap (λ app_id e, Some (drop_show_details app_id e)) steam_apps).
Proof. unfold _save_steam_lib. by intros [= <- <-]. Qed.

(** X6: a refresh followed by a load. The data that [load_steam_lib_fn]
    returns from the store a successful [get_steam_lib_fn] left holds exactly
    the identifiers the refresh returned together with those of the user
    registry; the registry entries are there as registered, and an entry the
    refresh returned comes back with every copied key as it was returned; a
    rescan is asked for exactly when the version differs or the refresh
    returned nothing. *)
Theorem load_after_refresh (fs : filesystem) (st st' : Store) (r : response)
  (apps : library) (version : string) (previous_version : value) :
  get_steam_lib_fn fs st = Ok (r, st') →
  r !! "data" = Some (JLibrary apps) →
  ∃ data rescan,
    load_steam_lib_fn version previous_version st'
    = {[ "result" := JBool true; "data" := JLibrary data;
         "reScanRequired" := JBool rescan ]}
    ∧ (∀ app_id, is_Some (data !! app_id)
                 ↔ is_Some (apps !! app_id) ∨ is_Some (user_apps (attrs st') !! app_id))
    ∧ (∀ app_id e, user_apps (attrs st') !! app_id = Some e → data !! app_id = Some e)
    ∧ (∀ app_id e, apps !! app_id = Some e → user_apps (attrs st') !! app_id = None →
         ∃ e' : entry,
           data !! app_id = Some e'
           ∧ Forall (λ k, e' !! k = Some (get e k)) copied_keys
           ∧ e' !! "settings" = Some (to_js (settings (FsrMod_new (reduce_entry e))) (Some false)))
    ∧ (rescan = false ↔ previous_version = VStr version ∧ apps ≠ ∅).
Proof.
  intros Hrun Hdata.
  destruct (get_steam_lib_fn_inv _ _ _ _ Hrun)
    as [(_ & msg & ->) | (lib & merged & st1 & kept & _ & _ & _ & Hsave & ->)];
    [done |].
  rewrite lookup_insert_ne in Hdata by done. rewrite lookup_singleton_eq in Hdata.
  injection Hdata as <-.
  apply save_cache in Hsave as (Hcache & _).
  unfold load_steam_lib_fn. eexists _, _. split; [reflexivity |].
  assert (∀ app_id, steam_apps_file st' !! app_id = reduce_entry <$> kept !! app_id)
    as Hlook.
  { intros app_id. rewrite Hcache. unfold reduce_steam_apps_for_export.
    by rewrite lookup_fmap. }
  split; [| split; [| split]].
  - intros app_id. rewrite load_data_lookup, Hlook.
    destruct (user_apps (attrs st') !! app_id) as [e |], (kept !! app_id) as [e' |];
      simpl; split; intros H; try done; try (by eexists); try (by left); try (by right).
    + by destruct H as [[] | []].
  - intros app_id e He. by rewrite load_data_lookup, He.
  - intros app_id e He Hreg. rewrite load_data_lookup, Hreg, Hlook, He. simpl.
    eexists. split; [reflexivity |]. split; [| reflexivity].
    unfold copied_keys. repeat constructor.
  - rewrite load_rescan. rewrite Hcache. unfold reduce_steam_apps_for_export.
    by rewrite fmap_empty_iff.
Qed.




(** X9: exporting an exported entry gives the same entry, its settings
    apart: a key that was missing has become [None] ([True] for
    ['fsr_compatible']) and stays so. *)
Theorem export_twice (e : entry) (k : string) :
  k ≠ "settings" →
  reduce_entry (reduce_entry e) !! k = reduce_entry e !! k.
Proof.
  intros Hk. unfold reduce_entry at 1 3. simpl.
  rewrite !(lookup_insert_ne _ "settings") by done.
  reflexivity.
Qed.

End library_rest_facts.

(** ** The user registry, continued *)

Section registry_rest_facts.
Context `{G : Globals} `{FS : FsrSettingsApi} `{FM : !FsrModApi} `{SA : SteamApi}.

(** A successful [add_custom_app_fn], with the path it registered. *)
Lemma add_custom_app_fn_success (app : entry) (fs : filesystem) (st st' : Store)
  (r : response) :
  add_custom_app_fn app fs st = Ok (r, st') →
  r !! "result" = Some (JBool true) →
  ∃ p e,
    let counter := user_app_counter (attrs st) + 1 in
    let app_id := USER_APP_PREFIX +:+ format_03d counter in
    get app "path" = VStr p
    ∧ p ≠ ""
    ∧ path_exists fs p = true
    ∧ find_registered_path (as_posix p) (user_apps (attrs st)) = None
    ∧ e !! "path" = Some (VStr (as_posix p))
    ∧ e !! "appid" = Some (VStr app_id)
    ∧ st' = AppSettings_save
              (set_attrs (mkAppSettings (<[app_id := e]> (user_apps (attrs st))) counter) st).
Proof.
  unfold add_custom_app_fn.
  destruct (get app "path") as [| b | z | [| c p] | l | items]; simpl;
    try discriminate; try (by intros [= <- <-]).
  destruct (path_exists fs (String c p)) eqn:Hexists; simpl;
    [| by intros [= <- <-] ].
  destruct (find_registered_path _ _) as [[app_id e] |] eqn:Hfind;
    [by intros [= <- <-] |].
  destruct (find_open_vr_dll fs (String c p)) as [| dll dlls]; [by intros [= <- <-] |].
  destruct (read_cfg_results _ _ _) as [cfg_results f].
  intros [= <- <-] _. eexists _, _. simpl. repeat split; done.
Qed.

Lemma remove_registered (app : entry) (st : Store) (s : string) (e : entry) :
  get app "appid" = VStr s → user_apps (attrs st) !! s = Some e →
  ∃ msg,
    remove_custom_app_fn app st
    = Ok (success_ msg,
          AppSettings_save
            (set_attrs (mkAppSettings (delete s (user_apps (attrs st)))
                          (user_app_counter (attrs st))) st)).
Proof.
  intros Hid He. unfold remove_custom_app_fn. rewrite Hid. simpl.
  rewrite He. rewrite bool_decide_eq_true_2 by (by eexists).
  simpl. by eexists.
Qed.

Lemma remove_custom_app_fn_inv (app : entry) (st st' : Store) (r : response) :
  remove_custom_app_fn app st = Ok (r, st') →
  st' = st
  ∨ ∃ s, st' = AppSettings_save
                 (set_attrs (mkAppSettings (delete s (user_apps (attrs st)))
                               (user_app_counter (attrs st))) st).
Proof.
  unfold remove_custom_app_fn.
  destruct (get app "appid") as [| b | z | s | l | items]; simpl;
    try (intros [= _ <-]; by left); try done.
  destruct (user_apps (attrs st) !! s) as [e |] eqn:He.
  - rewrite bool_decide_eq_true_2 by (by eexists). simpl.
    intros [= _ <-]. right. by exists s.
  - rewrite bool_decide_eq_false_2 by (by intros [? ?]). simpl.
    intros [= _ <-]. by left.
Qed.

Lemma find_registered_path_None (posix : string) (apps : library) :
  find_registered_path posix apps = None →
  ∀ app_id e, apps !! app_id = Some e → get e "path" ≠ VStr posix.
Proof.
  intros Hfind app_id e He Hpath.
  destruct (find_registered_path_Some posix app_id e apps He) as [kv Hkv].
  { rewrite Hpath. simpl. apply String.eqb_refl. }
  congruence.
Qed.

(** X10: a path is registered once. After a successful [add_custom_app_fn],
    a request with the same path fails with a message and leaves the store
    as it is, whatever else the request holds and whatever the file system
    looks like by then. *)
Theorem add_same_path_twice (app app2 : entry) (fs fs2 : filesystem) (st st' : Store)
  (r : response) :
  add_custom_app_fn app fs st = Ok (r, st') →
  r !! "result" = Some (JBool true) →
  get app2 "path" = get app "path" →
  ∃ msg, add_custom_app_fn app2 fs2 st' = Ok (failure msg, st').
Proof.
  intros Hrun Hres Hsame.
  destruct (add_custom_app_fn_success _ _ _ _ _ Hrun Hres)
    as (p & e & Hp & Hne & _ & _ & Hpath & _ & Hst').
  rewrite Hp in Hsame. unfold add_custom_app_fn. rewrite Hsame.
  destruct p as [| c p]; [done |]. simpl.
  destruct (path_exists fs2 (String c p)); simpl; [| by eexists].
  destruct (find_registered_path (as_posix (String c p)) (user_apps (attrs st')))
    as [[app_id e'] |] eqn:Hfind; [by eexists |].
  exfalso. eapply (find_registered_path_None _ _ Hfind); [| by unfold get; rewrite Hpath].
  rewrite Hst'. simpl. apply lookup_insert_eq.
Qed.

(** X11: no two entries of the user registry get the same path:
    [add_custom_app_fn] and [remove_custom_app_fn] take a registry whose
    entries have pairwise different paths to such a registry. *)
Theorem registry_paths_stay_unique (st : Store) :
  unique_paths (user_apps (attrs st)) →
  (∀ app fs r st', add_custom_app_fn app fs st = Ok (r, st') →
     unique_paths (user_apps (attrs st')))
  ∧ (∀ app r st', remove_custom_app_fn app st = Ok (r, st') →
       unique_paths (user_apps (attrs st'))).
Proof.
  intros Huniq. split.
  - intros app fs r st' Hrun.
    destruct (add_custom_app_fn_inv _ _ _ _ _ Hrun) as [(-> & _) | (e0 & msg & Hr & _)];
      [done |].
    destruct (add_custom_app_fn_success _ _ _ _ _ Hrun)
      as (p & e & _ & _ & _ & Hfind & Hpath & _ & ->);
      [by rewrite Hr |].
    simpl. intros id1 id2 e1 e2 q H1 H2 Hq1 Hq2.
    set (app_id := USER_APP_PREFIX +:+ format_03d (user_app_counter (attrs st) + 1)) in *.
    destruct (decide (id1 = app_id)) as [-> | Hn1], (decide (id2 = app_id)) as [-> | Hn2];
      [done | | |].
    + rewrite lookup_insert_eq in H1. injection H1 as <-.
      rewrite lookup_insert_ne in H2 by done.
      unfold get in Hq1. rewrite Hpath in Hq1. injection Hq1 as <-.
      by destruct (find_registered_path_None _ _ Hfind _ _ H2).
    + rewrite lookup_insert_eq in H2. injection H2 as <-.
      rewrite lookup_insert_ne in H1 by done.
      unfold get in Hq2. rewrite Hpath in Hq2. injection Hq2 as <-.
      by destruct (find_registered_path_None _ _ Hfind _ _ H1).
    + rewrite lookup_insert_ne in H1, H2 by done. by eapply Huniq.
  - intros app r st' Hrun.
    destruct (remove_custom_app_fn_inv _ _ _ _ Hrun) as [-> | [s ->]]; [done |].
    simpl. intros id1 id2 e1 e2 q H1 H2.
    apply lookup_delete_Some in H1 as [_ H1]. apply lookup_delete_Some in H2 as [_ H2].
    by eapply Huniq.
Qed.

(** X12: registration never replaces an entry. When the counter is at least
    the number of every generated identifier in the registry, a successful
    [add_custom_app_fn] keeps every entry that was there and adds exactly one,
    and both it and [remove_custom_app_fn] keep the counter that far ahead. *)
Theorem registration_keeps_entries (st : Store) :
  counter_covers st →
  (∀ app fs r st', add_custom_app_fn app fs st = Ok (r, st') →
     counter_covers st'
     ∧ (r !! "result" = Some (JBool true) →
        user_apps (attrs st) ⊆ user_apps (attrs st')
        ∧ size (user_apps (attrs st')) = S (size (user_apps (attrs st)))))
  ∧ (∀ app r st', remove_custom_app_fn app st = Ok (r, st') → counter_covers st').
Proof.
  intros Hcov. split.
  - intros app fs r st' Hrun.
    destruct (add_custom_app_fn_inv _ _ _ _ _ Hrun)
      as [(-> & msg & ->) | (e & msg & -> & _ & _ & ->)]; [by split |].
    set (app_id := USER_APP_PREFIX +:+ format_03d (user_app_counter (attrs st) + 1)).
    assert (user_apps (attrs st) !! app_id = None) as Hfresh.
    { destruct (user_apps (attrs st) !! app_id) as [e0 |] eqn:He0; [| done].
      assert (user_app_counter (attrs st) + 1 ≤ user_app_counter (attrs st)); [| lia].
      apply Hcov. unfold app_id in He0. by rewrite He0. }
    split.
    + intros c. simpl. fold app_id. intros Hc.
      destruct (decide (app_id = USER_APP_PREFIX +:+ format_03d c)) as [Heq | Hne].
      * apply (inj (String.append USER_APP_PREFIX)), format_03d_inj in Heq. lia.
      * rewrite lookup_insert_ne in Hc by done. apply Hcov in Hc. lia.
    + intros _. simpl. fold app_id. split.
      * by apply insert_subseteq.
      * by apply map_size_insert_None.
  - intros app r st' Hrun.
    destruct (remove_custom_app_fn_inv _ _ _ _ Hrun) as [-> | [s ->]]; [done |].
    intros c. simpl. intros [e He]. apply lookup_delete_Some in He as [_ He].
    apply Hcov. by eexists.
Qed.

(** X13: registering and then deleting. With the counter ahead of the
    registry, deleting the entry a successful [add_custom_app_fn] made gives
    back the registry as it was before, while the counter stays raised: the
    identifier is not handed out again. *)
Theorem add_then_remove (app app2 : entry) (fs : filesystem) (st st' : Store)
  (r : response) :
  counter_covers st →
  add_custom_app_fn app fs st = Ok (r, st') →
  r !! "result" = Some (JBool true) →
  get app2 "appid"
  = VStr (USER_APP_PREFIX +:+ format_03d (user_app_counter (attrs st) + 1)) →
  ∃ msg st'',
    remove_custom_app_fn app2 st' = Ok (success_ msg, st'')
    ∧ user_apps (attrs st'') = user_apps (attrs st)
    ∧ user_app_counter (attrs st'') = user_app_counter (attrs st) + 1.
Proof.
  intros Hcov Hrun Hres Hid.
  destruct (add_custom_app_fn_success _ _ _ _ _ Hrun Hres)
    as (p & e & _ & _ & _ & _ & _ & _ & Hst').
  set (app_id := USER_APP_PREFIX +:+ format_03d (user_app_counter (attrs st) + 1)) in *.
  assert (user_apps (attrs st) !! app_id = None) as Hfresh.
  { destruct (user_apps (attrs st) !! app_id) as [e0 |] eqn:He0; [| done].
    assert (user_app_counter (attrs st) + 1 ≤ user_app_counter (attrs st)); [| lia].
    apply Hcov. unfold app_id in He0. by rewrite He0. }
  destruct (remove_registered app2 st' app_id e Hid) as [msg Hremove].
  { rewrite Hst'. simpl. apply lookup_insert_eq. }
  eexists _, _. split; [exact Hremove |]. rewrite Hst'. simpl.
  split; [by apply delete_insert_id | done].
Qed.

End registry_rest_facts.

(** ** app/mod/mod_utils.py, continued *)

Section mod_utils_rest_facts.
Context `{BM : BaseModType} `{MD : ModDataDirs}.

(** X14: what [check_mod_data_dir] does outside its normal use. A falsy path
    ([None], the empty string, 0, an empty list) and a path that does not
    exist give [False] whatever the mod type is; a mod type that is not in
    the table only raises, a [TypeError], once the path exists, and one whose
    class is missing an [AttributeError]; a truthy path that is no string
    raises a [TypeError]. *)
Theorem check_mod_data_dir_errors (mod_type : Z) (fs : filesystem) :
  (∀ v, truthy v = false → check_mod_data_dir v mod_type fs = Ok false)
  ∧ (∀ s, path_exists fs s = false → check_mod_data_dir (VStr s) mod_type fs = Ok false)
  ∧ (∀ s, s ≠ "" → path_exists fs s = true → mod_types !! mod_type = None →
       check_mod_data_dir (VStr s) mod_type fs = Raise TypeError)
  ∧ (∀ s name, s ≠ "" → path_exists fs s = true →
       mod_types !! mod_type = Some name → mod_attr name = None →
       check_mod_data_dir (VStr s) mod_type fs = Raise (AttributeError name))
  ∧ (∀ v, truthy v = true → (∀ s, v ≠ VStr s) →
       check_mod_data_dir v mod_type fs = Raise TypeError).
Proof.
  split; [| split; [| split; [| split]]].
  - intros v Hv. unfold check_mod_data_dir. by rewrite Hv.
  - intros s Hs. unfold check_mod_data_dir. simpl.
    destruct (negb (String.eqb s "")); [| done]. simpl. by rewrite Hs.
  - intros s Hne Hs Hnone. unfold check_mod_data_dir. simpl.
    rewrite (proj2 (String.eqb_neq s "") Hne). simpl. rewrite Hs.
    unfold get_mod. by rewrite Hnone.
  - intros s name Hne Hs Hname Hattr. unfold check_mod_data_dir. simpl.
    rewrite (proj2 (String.eqb_neq s "") Hne). simpl. rewrite Hs.
    unfold get_mod. by rewrite Hname, Hattr.
  - intros v Hv Hstr. unfold check_mod_data_dir. rewrite Hv.
    destruct v as [| b | z | s | l | items]; try done. by destruct (Hstr s).
Qed.

(** With a string or [None] for the path and a mod type that has its class,
    [check_mod_data_dir] returns; and it only returns [True] for a string. *)
Lemma check_mod_data_dir_returns (v : value) (mod_type : Z) (name : string)
  (fs : filesystem) :
  match v with VStr _ | VNone => True | _ => False end →
  mod_types !! mod_type = Some name → is_Some (mod_attr name) →
  ∃ b, check_mod_data_dir v mod_type fs = Ok b.
Proof.
  intros Hv Hname [cls Hcls]. unfold check_mod_data_dir.
  destruct v as [| b | z | s | l | items]; try done; simpl; [by eexists |].
  destruct (negb (String.eqb s "")); simpl; [| by eexists].
  destruct (path_exists fs s); [| by eexists].
  unfold get_mod. rewrite Hname, Hcls. simpl.
  destruct (_ && _); by eexists.
Qed.

Lemma check_mod_data_dir_true_str (v : value) (mod_type : Z) (fs : filesystem) :
  check_mod_data_dir v mod_type fs = Ok true → ∃ s, v = VStr s.
Proof.
  unfold check_mod_data_dir.
  destruct (truthy v) eqn:Hv; [| done].
  destruct v as [| b | z | s | l | items]; try done. by eexists.
Qed.

Lemma update_mod_data_dir_step (fs : filesystem) (settings_dirs acc : gmap Z value)
  (mod_type : Z) :
  tables_complete → dirs_are_str settings_dirs →
  is_Some (mod_types !! mod_type) →
  update_mod_data_dir fs settings_dirs acc mod_type
  = Ok (<[mod_type := choice fs settings_dirs mod_type]> acc).
Proof.
  intros Htab Hstr [name Hname].
  destruct (Htab _ _ Hname) as [[dname Hdname] Hcls].
  unfold update_mod_data_dir, choice, chosen_data_dir. rewrite Hdname. simpl.
  destruct (check_mod_data_dir_returns (default VNone (settings_dirs !! mod_type))
              mod_type name fs) as [b Hb]; [| done | done |].
  { destruct (settings_dirs !! mod_type) as [v |] eqn:Hv; [| done].
    apply (Hstr _ _ Hv). }
  rewrite Hb. destruct b; [| done]. by rewrite insert_insert_eq.
Qed.

Lemma for_each_update (fs : filesystem) (settings_dirs : gmap Z value) (keys : list Z) :
  tables_complete → dirs_are_str settings_dirs →
  (∀ t, t ∈ keys → is_Some (mod_types !! t)) →
  ∀ acc, ∃ res,
    for_each (update_mod_data_dir fs settings_dirs) keys acc = Ok res
    ∧ ∀ t, res !! t = if decide (t ∈ keys) then Some (choice fs settings_dirs t)
                      else acc !! t.
Proof.
  intros Htab Hstr. induction keys as [| k keys IH]; intros Hkeys acc.
  - exists acc. split; [done |]. intros t. by rewrite decide_False by apply not_elem_of_nil.
  - destruct (IH (λ t Ht, Hkeys t (list_elem_of_further _ _ _ Ht))
                (<[k := choice fs settings_dirs k]> acc)) as (res & Hres & Hlook).
    exists res. split.
    + rewrite for_each_cons, update_mod_data_dir_step; [exact Hres | done | done |].
      apply Hkeys. by left.
    + intros t. rewrite Hlook.
      destruct (decide (t ∈ keys)) as [Hin | Hout].
      * by rewrite decide_True by by right.
      * destruct (decide (t = k)) as [-> | Hne].
        -- rewrite lookup_insert_eq. by rewrite decide_True by by left.
        -- rewrite lookup_insert_ne by done.
           rewrite decide_False; [done |]. by intros [? | ?]%elem_of_cons.
Qed.

Lemma mod_type_keys (t : Z) :
  t ∈ (map_to_list mod_types).*1 ↔ is_Some (mod_types !! t).
Proof.
  rewrite list_elem_of_fmap. split.
  - intros ([k name] & -> & Hin). apply elem_of_map_to_list in Hin. by eexists.
  - intros [name Hname]. exists (t, name). split; [done |].
    by apply elem_of_map_to_list.
Qed.

Lemma update_mod_data_dirs_lookup (fs : filesystem) (settings_dirs : gmap Z value) :
  tables_complete → dirs_are_str settings_dirs →
  ∃ mod_dirs,
    update_mod_data_dirs fs settings_dirs = Ok (mod_dirs, mod_dirs ∪ settings_dirs)
    ∧ ∀ t, mod_dirs !! t = if decide (is_Some (mod_types !! t))
                           then Some (choice fs settings_dirs t) else None.
Proof.
  intros Htab Hstr. unfold update_mod_data_dirs.
  destruct (for_each_update fs settings_dirs (map_to_list mod_types).*1 Htab Hstr)
    with (acc := (∅ : gmap Z value)) as (res & Hres & Hlook).
  { intros t. apply mod_type_keys. }
  exists res. rewrite Hres. split; [done |].
  intros t. rewrite Hlook. rewrite lookup_empty.
  destruct (decide (t ∈ _)) as [Hin | Hout].
  - by rewrite decide_True by by apply mod_type_keys.
  - rewrite decide_False; [done |]. by rewrite <- mod_type_keys.
Qed.

(** X15: with a directory name and a class for every mod type of the table
    and strings or [None] as configured directories, [update_mod_data_dirs]
    returns one directory for each mod type of the table and for nothing
    else: the configured directory when [check_mod_data_dir] accepts it, the
    default directory of the mod type in every other case; in
    [AppSettings.mod_data_dirs] these replace what was configured, and what
    is configured for other keys stays. *)
Theorem update_mod_data_dirs_spec (fs : filesystem) (settings_dirs : gmap Z value) :
  tables_complete → dirs_are_str settings_dirs →
  ∃ mod_dirs,
    update_mod_data_dirs fs settings_dirs = Ok (mod_dirs, mod_dirs ∪ settings_dirs)
    ∧ dom mod_dirs = dom mod_types
    ∧ (∀ t dname,
         is_Some (mod_types !! t) → mod_data_dir_names !! t = Some dname →
         mod_dirs !! t
         = Some (match check_mod_data_dir (default VNone (settings_dirs !! t)) t fs with
                 | Ok true => default VNone (settings_dirs !! t)
                 | _ => VStr (default_data_dir dname)
                 end)
         ∧ (mod_dirs ∪ settings_dirs) !! t = mod_dirs !! t)
    ∧ (∀ t, mod_types !! t = None → (mod_dirs ∪ settings_dirs) !! t = settings_dirs !! t).
Proof.
  intros Htab Hstr.
  destruct (update_mod_data_dirs_lookup fs settings_dirs Htab Hstr)
    as (mod_dirs & Hrun & Hlook).
  exists mod_dirs. split; [done |]. split; [| split].
  - apply set_eq. intros t. rewrite !elem_of_dom, Hlook.
    destruct (decide (is_Some (mod_types !! t))) as [Hin | Hout]; [done |].
    split; [by intros [? ?] | done].
  - intros t dname Hin Hdname.
    assert (mod_dirs !! t = Some (chosen_data_dir fs settings_dirs t dname)) as Hchosen.
    { rewrite Hlook, decide_True by done. unfold choice. by rewrite Hdname. }
    split; [exact Hchosen |]. rewrite lookup_union, Hchosen.
    by destruct (settings_dirs !! t).
  - intros t Hnone. rewrite lookup_union, Hlook, decide_False.
    + by destruct (settings_dirs !! t).
    + rewrite Hnone. by intros [? ?].
Qed.

Lemma choice_str (fs : filesystem) (settings_dirs : gmap Z value) (t : Z) :
  ∃ s, choice fs settings_dirs t = VStr s.
Proof.
  unfold choice, chosen_data_dir.
  destruct (check_mod_data_dir _ t fs) as [[] | e] eqn:Hc; try by eexists.
  by apply check_mod_data_dir_true_str in Hc.
Qed.

(** X16: [update_mod_data_dirs] settles: run again on the
    [AppSettings.mod_data_dirs] it has left, with the file system as it was,
    it returns the same directories and leaves the settings unchanged. *)
Theorem update_mod_data_dirs_twice (fs : filesystem) (settings_dirs : gmap Z value) :
  tables_complete → dirs_are_str settings_dirs →
  ∃ mod_dirs settings_dirs',
    update_mod_data_dirs fs settings_dirs = Ok (mod_dirs, settings_dirs')
    ∧ update_mod_data_dirs fs settings_dirs' = Ok (mod_dirs, settings_dirs').
Proof.
  intros Htab Hstr.
  destruct (update_mod_data_dirs_lookup fs settings_dirs Htab Hstr)
    as (mod_dirs & Hrun & Hlook).
  exists mod_dirs, (mod_dirs ∪ settings_dirs). split; [done |].
  assert (dirs_are_str (mod_dirs ∪ settings_dirs)) as Hstr'.
  { intros t v Hv. apply lookup_union_Some_raw in Hv as [Hv | [_ Hv]].
    - rewrite Hlook in Hv. destruct (decide _); [| done]. injection Hv as <-.
      by destruct (choice_str fs settings_dirs t) as [s ->].
    - apply (Hstr _ _ Hv). }
  destruct (update_mod_data_dirs_lookup fs (mod_dirs ∪ settings_dirs) Htab Hstr')
    as (mod_dirs' & Hrun' & Hlook').
  assert (mod_dirs' = mod_dirs) as ->.
  { apply map_eq. intros t. rewrite Hlook', Hlook.
    destruct (decide (is_Some (mod_types !! t))) as [Hin | Hout]; [| done]. f_equal.
    unfold choice at 1. unfold chosen_data_dir.
    rewrite lookup_union, Hlook, decide_True by done.
    rewrite union_Some_l. simpl.
    unfold choice, chosen_data_dir.
    destruct (check_mod_data_dir (default VNone (settings_dirs !! t)) t fs)
      as [[] | e] eqn:Hc.
    - by rewrite Hc.
    - by destruct (check_mod_data_dir (VStr _) t fs) as [[] | e].
    - by destruct (check_mod_data_dir (VStr _) t fs) as [[] | e']. }
  rewrite Hrun'. do 2 f_equal.
  by rewrite (assoc_L (∪)), (idemp_L (∪)).
Qed.

Lemma yield_mods_spec (m : entry) (keys : list Z) :
  (∀ t, t ∈ keys → is_Some (mod_types !! t)) →
  match yield_mods m keys with
  | (mods, None) =>
      Forall2 (λ t md, ∃ name cls, mod_types !! t = Some name
                                   ∧ mod_attr name = Some cls ∧ md = cls m) keys mods
  | (mods, Some e) =>
      ∃ t name, t ∈ keys ∧ mod_types !! t = Some name ∧ mod_attr name = None
                ∧ e = AttributeError name
  end.
Proof.
  induction keys as [| k keys IH]; intros Hkeys; simpl; [constructor |].
  destruct (Hkeys k) as [name Hname]; [by left |].
  unfold get_mod. rewrite Hname.
  destruct (mod_attr name) as [cls |] eqn:Hcls.
  - specialize (IH (λ t Ht, Hkeys t (list_elem_of_further _ _ _ Ht))).
    destruct (yield_mods m keys) as [mods [e |]].
    + destruct IH as (t & name' & Hin & H). exists t, name'. split; [by right | done].
    + constructor; [by eexists _, _ | done].
  - exists k, name. split; [by left | done].
Qed.

(** X17: [get_available_mods] builds one mod for every mod type of the
    table, each on the manifest it was given, when every class name of the
    table is a class of the package; when it stops with an exception, that is
    the [AttributeError] for a name of the table that is no class, and never
    the [TypeError] that [get_mod] raises for an unknown mod type. *)
Theorem get_available_mods_spec (m : entry) :
  match get_available_mods m with
  | (mods, None) =>
      length mods = size mod_types
      ∧ Forall2 (λ t md, ∃ name cls, mod_types !! t = Some name
                                     ∧ mod_attr name = Some cls ∧ md = cls m)
          (map_to_list mod_types).*1 mods
  | (mods, Some e) =>
      ∃ t name, mod_types !! t = Some name ∧ mod_attr name = None
                ∧ e = AttributeError name
  end
  ∧ ((∀ t name, mod_types !! t = Some name → is_Some (mod_attr name)) →
     (get_available_mods m).2 = None).
Proof.
  pose proof (yield_mods_spec m (map_to_list mod_types).*1
                (λ t, proj1 (mod_type_keys t))) as Hspec.
  unfold get_available_mods.
  destruct (yield_mods m (map_to_list mod_types).*1) as [mods [e |]]; simpl.
  - destruct Hspec as (t & name & _ & Hname & Hattr & ->). split; [by eexists _, _ |].
    intros Hall. destruct (Hall _ _ Hname) as [cls Hcls]. congruence.
  - split; [| done]. split; [| done].
    apply Forall2_length in Hspec. rewrite <- Hspec, length_fmap.
    apply length_map_to_list.
Qed.

End mod_utils_rest_facts.

(** ** The further statements on the concrete configuration *)

Section rest_on_demo.
#[local] Existing Instances Demo.globals Demo.fsr_settings Demo.fsr_mod Demo.steam
  Demo.base_mod_type DemoRest.mod_data_dirs.

(** The refresh of the concrete store succeeds and returns a library. *)
Lemma refresh_demo :
  ∃ r st' apps,
    get_steam_lib_fn Demo.fs Demo.store = Ok (r, st')
    ∧ r !! "data" = Some (JLibrary apps)
    ∧ is_Some (apps !! "250820")
    ∧ is_Some (user_apps (attrs st') !! "#Usr001").
Proof.
  destruct (succeeded_inv (get_steam_lib_fn Demo.fs Demo.store))
    as (r & st' & Hrun & Hres); [by vm_compute |].
  assert (match get_steam_lib_fn Demo.fs Demo.store with
          | Ok (r, st') =>
              match r !! "data" with
              | Some (JLibrary apps) =>
                  bool_decide (is_Some (apps !! "250820"))
                  && bool_decide (is_Some (user_apps (attrs st') !! "#Usr001"))
              | _ => false
              end
          | Raise _ => false
          end = true) as Hhas by (vm_compute; reflexivity).
  rewrite Hrun in Hhas.
  destruct (r !! "data") as [[b | v | e | apps] |] eqn:Hdata; try discriminate Hhas.
  apply andb_prop in Hhas as [Happ Hreg].
  exists r, st', apps. split; [exact Hrun |]. split; [exact Hdata |].
  split; [exact (bool_decide_eq_true_1 _ Happ) | exact (bool_decide_eq_true_1 _ Hreg)].
Qed.

Lemma load_after_refresh_demo :
  ∃ r st' data rescan,
    get_steam_lib_fn Demo.fs Demo.store = Ok (r, st')
    ∧ load_steam_lib_fn "0.6.2" (VStr "0.6.2") st'
      = {[ "result" := JBool true; "data" := JLibrary data;
           "reScanRequired" := JBool rescan ]}
    ∧ is_Some (data !! "250820")
    ∧ is_Some (data !! "#Usr001").
Proof.
  destruct refresh_demo as (r & st' & apps & Hrun & Hdata & Happ & Hreg).
  destruct (load_after_refresh Demo.fs Demo.store st' r apps "0.6.2" (VStr "0.6.2")
              Hrun Hdata) as (data & rescan & Hload & Hdom & _).
  exists r, st', data, rescan. split; [exact Hrun |]. split; [exact Hload |].
  split; apply Hdom; [left; exact Happ | right; exact Hreg].
Defined.

Lemma export_twice_demo :
  reduce_entry (reduce_entry Demo.removed_game) !! "path"
  = reduce_entry Demo.removed_game !! "path"
  ∧ reduce_entry Demo.removed_game !! "path" = Some VNone.
Proof.
  split; [| reflexivity].
  apply (export_twice Demo.removed_game "path"). discriminate.
Defined.

Lemma add_new_app_demo :
  ∃ r st',
    add_custom_app_fn Demo.new_app Demo.fs Demo.store = Ok (r, st')
    ∧ r !! "result" = Some (JBool true).
Proof.
  destruct (succeeded_inv (add_custom_app_fn Demo.new_app Demo.fs Demo.store))
    as (r & st' & Hrun & Hres); [by vm_compute |].
  exists r, st'. split; [exact Hrun | exact Hres].
Qed.

Lemma add_same_path_twice_demo :
  ∃ r st' msg,
    add_custom_app_fn Demo.new_app Demo.fs Demo.store = Ok (r, st')
    ∧ add_custom_app_fn Demo.new_app Demo.fs st' = Ok (failure msg, st').
Proof.
  destruct add_new_app_demo as (r & st' & Hrun & Hres).
  destruct (add_same_path_twice Demo.new_app Demo.new_app Demo.fs Demo.fs Demo.store st' r
              Hrun Hres eq_refl) as [msg Hagain].
  exists r, st', msg. split; [exact Hrun | exact Hagain].
Defined.

Lemma unique_paths_demo : unique_paths (user_apps (attrs Demo.store)).
Proof.
  intros id1 id2 e1 e2 p H1 H2 _ _. simpl in H1, H2.
  apply lookup_insert_Some in H1 as [[<- _] | [_ H1]];
    [| rewrite lookup_empty in H1; discriminate H1].
  apply lookup_insert_Some in H2 as [[<- _] | [_ H2]];
    [reflexivity | rewrite lookup_empty in H2; discriminate H2].
Qed.

Lemma registry_paths_stay_unique_demo :
  ∃ r st',
    add_custom_app_fn Demo.new_app Demo.fs Demo.store = Ok (r, st')
    ∧ unique_paths (user_apps (attrs st')).
Proof.
  destruct add_new_app_demo as (r & st' & Hrun & Hres).
  exists r, st'. split; [exact Hrun |].
  exact (proj1 (registry_paths_stay_unique Demo.store unique_paths_demo)
           Demo.new_app Demo.fs r st' Hrun).
Defined.

Lemma counter_covers_demo : counter_covers Demo.store.
Proof.
  intros c [e He]. simpl in He.
  apply lookup_insert_Some in He as [[Heq _] | [_ He]];
    [| rewrite lookup_empty in He; discriminate He].
  change "#Usr001" with ("#Usr" +:+ format_03d 1) in Heq.
  apply (inj (String.append "#Usr")), format_03d_inj in Heq.
  subst c. reflexivity.
Qed.

Lemma registration_keeps_entries_demo :
  ∃ r st',
    add_custom_app_fn Demo.new_app Demo.fs Demo.store = Ok (r, st')
    ∧ counter_covers st'
    ∧ user_apps (attrs st') !! "#Usr001" = Some Demo.user_game
    ∧ size (user_apps (attrs st')) = 2%nat.
Proof.
  destruct add_new_app_demo as (r & st' & Hrun & Hres).
  destruct (proj1 (registration_keeps_entries Demo.store counter_covers_demo)
              Demo.new_app Demo.fs r st' Hrun) as [Hcov Hkeep].
  destruct (Hkeep Hres) as [Hsub Hsize].
  exists r, st'. split; [exact Hrun |]. split; [exact Hcov |]. split.
  - eapply lookup_weaken; [| exact Hsub]. reflexivity.
  - rewrite Hsize. reflexivity.
Defined.

Lemma add_then_remove_demo :
  ∃ r st' msg st'',
    add_custom_app_fn Demo.new_app Demo.fs Demo.store = Ok (r, st')
    ∧ remove_custom_app_fn (<["appid" := VStr "#Usr002"]> ∅) st' = Ok (success_ msg, st'')
    ∧ user_apps (attrs st'') = user_apps (attrs Demo.store)
    ∧ user_app_counter (attrs st'') = 2.
Proof.
  destruct add_new_app_demo as (r & st' & Hrun & Hres).
  assert (get (<["appid" := VStr "#Usr002"]> ∅) "appid"
          = VStr (USER_APP_PREFIX +:+ format_03d (user_app_counter (attrs Demo.store) + 1)))
    as Hid by reflexivity.
  destruct (add_then_remove Demo.new_app (<["appid" := VStr "#Usr002"]> ∅) Demo.fs
              Demo.store st' r counter_covers_demo Hrun Hres Hid)
    as (msg & st'' & Hremove & Hreg & Hcounter).
  exists r, st', msg, st''. split; [exact Hrun |]. split; [exact Hremove |].
  split; [exact Hreg | exact Hcounter].
Defined.


Lemma tables_complete_demo : tables_complete.
Proof.
  intros t name Ht. simpl in Ht.
  apply lookup_insert_Some in Ht as [[<- <-] | [_ Ht]].
  { split; by eexists. }
  apply lookup_insert_Some in Ht as [[<- <-] | [_ Ht]].
  { split; by eexists. }
  rewrite lookup_empty in Ht. discriminate Ht.
Qed.

Lemma dirs_are_str_demo : dirs_are_str DemoRest.settings_dirs.
Proof.
  apply map_Forall_insert_2; [exact I |].
  apply map_Forall_insert_2; [exact I |]. apply map_Forall_empty.
Qed.

Lemma update_mod_data_dirs_spec_demo :
  ∃ mod_dirs,
    update_mod_data_dirs Demo.mod_fs DemoRest.settings_dirs
    = Ok (mod_dirs, mod_dirs ∪ DemoRest.settings_dirs)
    ∧ mod_dirs !! 0 = Some (VStr "mods")
    ∧ mod_dirs !! 1 = Some (VStr "data/vrperfkit").
Proof.
  destruct (update_mod_data_dirs_spec Demo.mod_fs DemoRest.settings_dirs
              tables_complete_demo dirs_are_str_demo)
    as (mod_dirs & Hrun & _ & Hchosen & _).
  exists mod_dirs. split; [exact Hrun |]. split.
  - destruct (Hchosen 0 "openvr_fsr") as [H0 _];
      [exists "FsrMod"; reflexivity | reflexivity |].
    rewrite H0. reflexivity.
  - destruct (Hchosen 1 "vrperfkit") as [H1 _];
      [exists "VRPerfKitMod"; reflexivity | reflexivity |].
    rewrite H1. reflexivity.
Defined.

Lemma update_mod_data_dirs_twice_demo :
  ∃ mod_dirs settings_dirs',
    update_mod_data_dirs Demo.mod_fs DemoRest.settings_dirs
    = Ok (mod_dirs, settings_dirs')
    ∧ update_mod_data_dirs Demo.mod_fs settings_dirs' = Ok (mod_dirs, settings_dirs').
Proof.
  exact (update_mod_data_dirs_twice Demo.mod_fs DemoRest.settings_dirs
           tables_complete_demo dirs_are_str_demo).
Defined.

(** [check_mod_data_dir] and [get_available_mods] on tables that are not
    complete. *)
Example check_mod_data_dir_errors_demo :
  check_mod_data_dir (VStr "mods") 5 Demo.mod_fs = Raise TypeError
  ∧ check_mod_data_dir (VStr "nowhere") 5 Demo.mod_fs = Ok false
  ∧ @check_mod_data_dir DemoRest.broken_mod_type (VStr "mods") 7 Demo.mod_fs
    = Raise (AttributeError "NoSuchMod")
  ∧ check_mod_data_dir (VInt 3) 0 Demo.mod_fs = Raise TypeError
  ∧ @get_available_mods DemoRest.broken_mod_type Demo.game
    = ([], Some (AttributeError "NoSuchMod"))
  ∧ length (get_available_mods Demo.game).1 = 2%nat.
Proof. repeat split; reflexivity. Qed.

Lemma success_data (apps : library) :
  ({[ "result" := JBool true; "data" := JLibrary apps ]} : response) !! "data"
  = Some (JLibrary apps).
Proof. reflexivity. Qed.

Lemma name_and_selection (e : entry) (name dll : string) :
  match e !! "name", e !! "openVrDllPathsSelected" with
  | Some (VStr n), Some (VList [VStr p]) => String.eqb n name && String.eqb p dll
  | _, _ => false
  end = true →
  e !! "name" = Some (VStr name)
  ∧ e !! "openVrDllPathsSelected" = Some (VList [VStr dll]).
Proof.
  destruct (e !! "name") as [[| | | n | |] |]; try discriminate.
  destruct (e !! "openVrDllPathsSelected") as [[| | | | [| [| | | p | |] [|]] |] |];
    try discriminate.
  intros Heq. apply andb_prop in Heq as [Hn Hp].
  apply String.eqb_eq in Hn as ->. apply String.eqb_eq in Hp as ->. done.
Qed.

(** C2, as stated, fails for an identifier that the user registry holds as
    well: the scan and the cache both have the game, the registry entry
    replaces the merged one when the user apps are added, and the entry
    returned has the selection and the name of the registry, not the cached
    selection and the scanned name. *)
Lemma registry_entry_wins_over_cache :
  read_steam_library Demo.fs = Ok (<["libraryfolders" := ∅]> Demo.scanned)
  ∧ update_steam_apps Demo.fs
      (delete STEAM_LIBRARY_FOLDERS (<["libraryfolders" := ∅]> Demo.scanned)) !! "250820"
    = Some Demo.game
  ∧ _load_steam_apps_with_fsr_settings DemoRest.clash_store !! "250820"
    = Some DemoRest.loaded_cached_game
  ∧ user_apps (attrs (AppSettings_load DemoRest.clash_store)) !! "250820"
    = Some DemoRest.registry_game
  ∧ (∃ r st' apps,
       get_steam_lib_fn Demo.fs DemoRest.clash_store = Ok (r, st')
       ∧ r !! "result" = Some (JBool true)
       ∧ r !! "data" = Some (JLibrary apps)
       ∧ ∃ e : entry,
           apps !! "250820" = Some e
           ∧ e !! "name" = Some (VStr "From registry")
           ∧ e !! "openVrDllPathsSelected"
             = Some (VList [VStr "elsewhere/openvr_api.dll"]))
  ∧ ¬ cached_values_win Demo.fs DemoRest.clash_store "250820" Demo.game
        DemoRest.loaded_cached_game.
Proof.
  assert (match get_steam_lib_fn Demo.fs DemoRest.clash_store with
          | Ok (r, _) =>
              match r !! "data" with
              | Some (JLibrary apps) =>
                  match apps !! "250820" with
                  | Some e =>
                      match e !! "name", e !! "openVrDllPathsSelected" with
                      | Some (VStr n), Some (VList [VStr p]) =>
                          String.eqb n "From registry"
                          && String.eqb p "elsewhere/openvr_api.dll"
                      | _, _ => false
                      end
                  | None => false
                  end
              | _ => false
              end
          | Raise _ => false
          end = true) as Hhas by (vm_compute; reflexivity).
  split; [reflexivity |]. split; [reflexivity |]. split; [reflexivity |].
  split; [reflexivity |]. split.
  - destruct (succeeded_inv (get_steam_lib_fn Demo.fs DemoRest.clash_store))
      as (r & st' & Hrun & Hres); [by vm_compute |].
    rewrite Hrun in Hhas.
    destruct (r !! "data") as [[b | v | e | apps] |] eqn:Hdata; try discriminate Hhas.
    destruct (apps !! "250820") as [e |] eqn:He; [| discriminate Hhas].
    exists r, st', apps. split; [exact Hrun |]. split; [exact Hres |].
    split; [exact Hdata |]. exists e. split; [exact He |]. exact (name_and_selection e _ _ Hhas).
  - intros (apps & st' & e & Hrun & He & _ & Hsel & _).
    rewrite Hrun, success_data, He in Hhas.
    destruct (name_and_selection e _ _ Hhas) as [_ Hsel'].
    rewrite Hsel' in Hsel. vm_compute in Hsel. discriminate Hsel.
Qed.

(** The same refresh on a scan whose entry is flagged as a user app:
    [_save_steam_lib] moves the merged entry to the user registry, and the
    library returned has no entry under the identifier. *)
Example flagged_scan_entry_not_returned :
  ∃ r st' apps,
    @get_steam_lib_fn Demo.globals Demo.fsr_settings Demo.fsr_mod DemoRest.flagged_steam
      Demo.fs Demo.store = Ok (r, st')
    ∧ r !! "result" = Some (JBool true)
    ∧ r !! "data" = Some (JLibrary apps)
    ∧ apps !! "250820" = None
    ∧ is_Some (user_apps (attrs st') !! "250820").
Proof.
  set (run := @get_steam_lib_fn Demo.globals Demo.fsr_settings Demo.fsr_mod
                DemoRest.flagged_steam Demo.fs Demo.store).
  assert (match run with
          | Ok (r, st') =>
              match r !! "data" with
              | Some (JLibrary apps) =>
                  bool_decide (apps !! "250820" = None)
                  && bool_decide (is_Some (user_apps (attrs st') !! "250820"))
              | _ => false
              end
          | Raise _ => false
          end = true) as Hhas by (vm_compute; reflexivity).
  destruct (succeeded_inv run) as (r & st' & Hrun & Hres); [by vm_compute |].
  rewrite Hrun in Hhas.
  destruct (r !! "data") as [[b | v | e | apps] |] eqn:Hdata; try discriminate Hhas.
  apply andb_prop in Hhas as [Hnone Hreg].
  exists r, st', apps. split; [exact Hrun |]. split; [exact Hres |].
  split; [exact Hdata |].
  split; [exact (bool_decide_eq_true_1 _ Hnone) | exact (bool_decide_eq_true_1 _ Hreg)].
Qed.

End rest_on_demo.
